(** * Diffusers server: model resolution, loading and generation

    A shallow embedding of [python/diffusers_server/server.py] and the
    properties of its loader, its size parser, its per-image seeding and its
    request gate.

    Conventions of the embedding.
    - A Python [str] is a [string] whose characters are read as the code
      points 0..255; the builtins used by the server ([str.lower],
      [str.split], [str.endswith], [int], [repr], [os.path.dirname],
      [os.path.basename]) are written out for that range.
    - A Python [int] is a [Z].
    - An exception is a value of [exn]: its class, the text [str] gives for
      it, and the two chaining links [__cause__] and [__context__].
    - The module globals [pipeline], [current_model] and [served_model_name]
      are fields of [world]; every call into torch, diffusers, PIL or uvicorn
      is an entry of the world's [trace] and every [logger] call an entry
      of its [logs]; [stderr] is what the server's own code writes on the
      error stream, in order: the records of its logger, which line 24
      ([logging.basicConfig]) sends there, and the texts it prints there.
      What the libraries write on the stream themselves is not recorded. *)

From Stdlib Require Import ZArith NArith List String Ascii Bool Lia.
From Stdlib Require Import Decimal DecimalString DecimalPos SpecFloat.
Import ListNotations.

Local Open Scope string_scope.
Local Open Scope Z_scope.

(** ** Python strings *)

Module PyStr.

Definition code (c : ascii) : N := N_of_ascii c.

(** [str.lower] on one character: A..Z, and the upper-case letters of the
    Latin-1 block (0xC0..0xDE without the multiplication sign 0xD7). *)
Definition lower_char (c : ascii) : ascii :=
  let n := code c in
  if ((65 <=? n) && (n <=? 90))%N
     || ((192 <=? n) && (n <=? 222) && negb (n =? 215))%N
  then ascii_of_N (n + 32) else c.

Fixpoint lower (s : string) : string :=
  match s with
  | EmptyString => EmptyString
  | String c r => String (lower_char c) (lower r)
  end.

(** [s.split(sep)] for a separator of one character. *)
Fixpoint split (sep : ascii) (s : string) : list string :=
  match s with
  | EmptyString => [EmptyString]
  | String c r =>
      if Ascii.eqb c sep then EmptyString :: split sep r
      else match split sep r with
           | h :: t => String c h :: t
           | [] => [String c EmptyString]
           end
  end.

(** [s.endswith(suffix)] *)
Definition endswith (s suffix : string) : bool :=
  let n := String.length s in
  let k := String.length suffix in
  (k <=? n)%nat && String.eqb (substring (n - k) k s) suffix.

(** The characters [int] skips around a literal: the C white space and,
    of the Latin-1 block, NEL and the no-break space. *)
Definition is_space (c : ascii) : bool :=
  let n := code c in
  (((9 <=? n) && (n <=? 13)) || (n =? 32) || (n =? 133) || (n =? 160))%N.

Definition digit_value (c : ascii) : option Z :=
  let n := code c in
  if ((48 <=? n) && (n <=? 57))%N then Some (Z.of_N (n - 48)) else None.

Fixpoint skip_spaces (s : string) : string :=
  match s with
  | String c r => if is_space c then skip_spaces r else s
  | EmptyString => s
  end.

(** The digit loop of [int]: digits accumulate, one underscore may sit
    between two digits; it stops at the first other character and gives
    back what is left.  [prev] tells that the last character read was an
    underscore. *)
Fixpoint scan_digits (acc : Z) (prev : bool) (s : string) : option (Z * string) :=
  match s with
  | String c r =>
      if Ascii.eqb c "_" then
        if prev then None else scan_digits acc true r
      else
        match digit_value c with
        | Some d => scan_digits (10 * acc + d) false r
        | None => if prev then None else Some (acc, s)
        end
  | EmptyString => if prev then None else Some (acc, s)
  end.

Definition take_sign (s : string) : Z * string :=
  match s with
  | String c r =>
      if Ascii.eqb c "+" then (1, r)
      else if Ascii.eqb c "-" then (-1, r)
      else (1, s)
  | EmptyString => (1, s)
  end.

(** The number of digits of the run [scan_digits] reads: leading zeros
    count, underscores do not. *)
Fixpoint count_digits (s : string) : N :=
  match s with
  | String c r =>
      if Ascii.eqb c "_" then count_digits r
      else match digit_value c with
           | Some _ => N.succ (count_digits r)
           | None => 0%N
           end
  | EmptyString => 0%N
  end.

(** [sys.get_int_max_str_digits()] as the interpreter starts with; the
    server never changes it. *)
Definition int_max_str_digits : N := 4300.

(** How [int(s)] in base 10 ends: with a value, or with one of its two
    [ValueError]s.  The digits are counted once the run of digits is read
    and before what follows it is looked at. *)
Inductive int_reading : Type :=
| Int_value (z : Z)
| Invalid_literal
| Exceeds_limit (digits : N).

Definition read_int (s : string) : int_reading :=
  let '(sign, body) := take_sign (skip_spaces s) in
  match body with
  | String c _ =>
      match digit_value c with
      | Some _ =>
          match scan_digits 0 false body with
          | Some (v, rest) =>
              if (int_max_str_digits <? count_digits body)%N
              then Exceeds_limit (count_digits body)
              else match skip_spaces rest with
                   | EmptyString => Int_value (sign * v)
                   | String _ _ => Invalid_literal
                   end
          | None => Invalid_literal
          end
      | None => Invalid_literal
      end
  | EmptyString => Invalid_literal
  end.

(** [int(s)] in base 10; [None] stands for the [ValueError]. *)
Definition py_int (s : string) : option Z :=
  match read_int s with
  | Int_value z => Some z
  | _ => None
  end.

Definition hex_digit (n : N) : ascii :=
  if (n <? 10)%N then ascii_of_N (48 + n) else ascii_of_N (87 + n).

Definition contains_char (c : ascii) (s : string) : bool :=
  existsb (Ascii.eqb c) (list_ascii_of_string s).

(** Characters [repr] writes as they are. *)
Definition printable (c : ascii) : bool :=
  let n := code c in
  (((32 <=? n) && (n <=? 126)) || ((161 <=? n) && negb (n =? 173)))%N.

Definition repr_char (quote : ascii) (c : ascii) : string :=
  if Ascii.eqb c quote || Ascii.eqb c "\" then String "\" (String c EmptyString)
  else if Ascii.eqb c "009" then "\t"
  else if Ascii.eqb c "010" then "\n"
  else if Ascii.eqb c "013" then "\r"
  else if printable c then String c EmptyString
  else String "\" (String "x"
         (String (hex_digit (code c / 16)) (String (hex_digit (code c mod 16)) EmptyString))).

Fixpoint repr_body (quote : ascii) (s : string) : string :=
  match s with
  | EmptyString => EmptyString
  | String c r => repr_char quote c ++ repr_body quote r
  end.

(** [repr(s)]: double quotes only when [s] has a single quote and no
    double quote. *)
Definition repr (s : string) : string :=
  let quote : ascii :=
    if contains_char "'" s && negb (contains_char "034" s) then "034"%char else "'"%char in
  String quote (repr_body quote s ++ String quote EmptyString).

(** [str(n)] for a count. *)
Definition dec_count (n : N) : string := NilEmpty.string_of_uint (N.to_uint n).

(** The text of the [ValueError] of [int(s)]. *)
Definition int_error_text (s : string) : string :=
  match read_int s with
  | Exceeds_limit digits =>
      "Exceeds the limit (" ++ dec_count int_max_str_digits
        ++ " digits) for integer string conversion: value has "
        ++ dec_count digits
        ++ " digits; use sys.set_int_max_str_digits() to increase the limit"
  | _ => "invalid literal for int() with base 10: " ++ substring 0 200 (repr s)
  end.

(** [os.path.split] of posixpath cuts after the last slash:
    [after_last_slash p] is [p[p.rfind('/') + 1:]]. *)
Fixpoint after_last_slash (s : string) : string :=
  match s with
  | EmptyString => EmptyString
  | String c r =>
      if contains_char "/" r then after_last_slash r
      else if Ascii.eqb c "/" then r else s
  end.

Fixpoint all_slashes (s : string) : bool :=
  match s with
  | EmptyString => true
  | String c r => Ascii.eqb c "/" && all_slashes r
  end.

(** [s.rstrip('/')] *)
Fixpoint rstrip_slash (s : string) : string :=
  match s with
  | EmptyString => EmptyString
  | String c r => if all_slashes r && Ascii.eqb c "/" then EmptyString
                  else String c (rstrip_slash r)
  end.

Definition basename (p : string) : string := after_last_slash p.

Definition dirname (p : string) : string :=
  let head := substring 0 (String.length p - String.length (basename p)) p in
  if negb (String.eqb head EmptyString) && negb (all_slashes head)
  then rstrip_slash head else head.

End PyStr.

Import PyStr.

(** ** Exceptions and results *)

(** The exception classes the server raises or tells apart.  All of them
    derive from [Exception]; [OtherException] stands for any other class
    that does and derives from none of the classes named here. *)
Inductive exn_class : Type :=
| ValueError
| IndexError
| RuntimeError
| HTTPException (status_code : Z) (detail : string)
| OtherException (name : string).

(** An exception instance: its class, what [str(e)] gives, [e.__cause__] and
    [e.__context__]. *)
#[warnings="-register-all"]
Inductive exn : Type :=
| Exn (cls : exn_class) (text : string) (cause : option exn) (context : option exn).

Definition exn_cls (e : exn) : exn_class := let 'Exn c _ _ _ := e in c.
Definition str (e : exn) : string := let 'Exn _ t _ _ := e in t.
Definition cause_of (e : exn) : option exn := let 'Exn _ _ c _ := e in c.
Definition context_of (e : exn) : option exn := let 'Exn _ _ _ c := e in c.

(** [Cls(text)] as written at a [raise]. *)
Definition new_exn (c : exn_class) (text : string) : exn := Exn c text None None.

(** An exception that escapes while [handled] is being handled gets
    [handled] as the end of its [__context__] chain: a fresh exception has no
    context yet and points at [handled] directly.  [__cause__] is only set
    by [raise ... from ...], which the server never writes. *)
Fixpoint raised_while_handling (handled e : exn) : exn :=
  match e with
  | Exn c t cause None => Exn c t cause (Some handled)
  | Exn c t cause (Some x) => Exn c t cause (Some (raised_while_handling handled x))
  end.

Definition is_ValueError (e : exn) : bool :=
  match exn_cls e with ValueError => true | _ => false end.
Definition is_IndexError (e : exn) : bool :=
  match exn_cls e with IndexError => true | _ => false end.

Inductive result (A : Type) : Type :=
| Ok (a : A)
| Raise (e : exn).
Arguments Ok {A} a.
Arguments Raise {A} e.

Definition rbind {A B} (r : result A) (k : A -> result B) : result B :=
  match r with Ok a => k a | Raise e => Raise e end.

(** [int(s)] with its [ValueError]. *)
Definition int (s : string) : result Z :=
  match py_int s with
  | Some z => Ok z
  | None => Raise (new_exn ValueError (int_error_text s))
  end.

(** ** parse_size *)

Definition parse_size (size : string) : result (Z * Z) :=
  let body : result (Z * Z) :=
    let parts := split "x" (lower size) in
    if negb (Nat.eqb (List.length parts) 2) then
      Raise (new_exn ValueError ("Invalid size format: " ++ size))
    else
      rbind (int (nth 0 parts EmptyString)) (fun width =>
      rbind (int (nth 1 parts EmptyString)) (fun height =>
      Ok (width, height))) in
  match body with
  | Ok r => Ok r
  | Raise e =>
      if is_ValueError e || is_IndexError e then
        Raise (raised_while_handling e
                 (new_exn ValueError
                    ("Invalid size format '" ++ size
                       ++ "'. Expected format like '512x512': " ++ str e)))
      else Raise e
  end.

(** Decimal rendering of a positive number, as [str(W)] writes it. *)
Definition dec (p : positive) : string := NilEmpty.string_of_uint (Pos.to_uint p).

(** A rendered number [int] takes: one of at most 4300 digits. *)
Definition within_int_limit (p : positive) : Prop :=
  (N.of_nat (String.length (dec p)) <= int_max_str_digits)%N.

(** The size strings the specification calls valid: ["WxH"] with [W] and [H]
    positive integers, the separator in either case. *)
Definition positive_size_string (s : string) : Prop :=
  exists W H : positive, s = dec W ++ "x" ++ dec H \/ s = dec W ++ "X" ++ dec H.

(** What the code accepts: lower-cased, the string is two [x]-free parts
    around one [x], and [int] reads both. *)
Definition int_pair_string (s : string) (w h : Z) : Prop :=
  exists a b : string,
    lower s = a ++ String "x" b /\
    contains_char "x" a = false /\ contains_char "x" b = false /\
    py_int a = Some w /\ py_int b = Some h.

(** ** The world the server runs in *)

Inductive device : Type := Cuda | Mps | Cpu.
Inductive dtype : Type := Float16 | Float32.

(** [torch.Generator(device=d).manual_seed(s)]: the generator is known by
    its device and its seed. *)
Record generator : Type := { gen_device : device; gen_seed : Z }.

(** A Python [float], passed through to the engine untouched. *)
Definition float : Type := spec_float.

(** The keyword arguments of one [pipeline(...)] call. *)
Record call_args : Type := {
  arg_prompt : string;
  arg_negative_prompt : option string;
  arg_width : Z;
  arg_height : Z;
  arg_num_inference_steps : Z;
  arg_guidance_scale : float;
  arg_generator : option generator
}.

(** Calls that leave the server. The first two constructors are always
    called with [safety_checker=None, requires_safety_checker=False], the
    third never. *)
Inductive event : Type :=
| AutoPipeline_from_pretrained (path : string) (torch_dtype : dtype)
| StableDiffusionPipeline_from_pretrained (path : string) (torch_dtype : dtype)
| DiffusionPipeline_from_pretrained (path : string) (dduf_file : option string) (torch_dtype : dtype)
| Pipeline_to (d : device)
| Enable_attention_slicing
| Generator_manual_seed (d : device) (seed : Z)
| Pipeline_call (args : call_args)
| Image_save_png
| Time_time
| Uvicorn_run (host : string) (port : Z).

Definition history : Type := list event.

Inductive level : Type := INFO | WARNING | ERROR.

(** The [logger] calls of the server, by what they report. *)
Inductive log_msg : Type :=
| Loading_from_dduf (dduf_path : string)
| Using_directory (dduf_dir : string)
| Using_dduf_filename (dduf_filename : string)
| Loaded_from_dduf (d : device)
| Error_loading_dduf (e : exn)
| Already_loaded (model_path : string)
| Loading_model (model_path : string)
| Using_device (d : device) (t : dtype)
| Loading_from_directory (model_path : string)
| AutoPipeline_failed (e : exn)
| StableDiffusionPipeline_failed (e : exn)
| Loaded_on (d : device)
| Generating (n : Z) (prompt_head : string)
| Generated (count : nat)
| Error_generating_image (e : exn)
| Starting_server (host : string) (port : Z).

Inductive node_kind : Type := RegularFile | Directory | OtherNode.

(** File system state as [os.path] sees it: what, if anything, is at a path. *)
Definition filesystem : Type := string -> option node_kind.

Definition isfile (fs : filesystem) (path : string) : bool :=
  match fs path with Some RegularFile => true | _ => false end.

Definition isdir (fs : filesystem) (path : string) : bool :=
  match fs path with Some Directory => true | _ => false end.

Definition bytes : Type := list Byte.byte.

(** What the server gets from outside: the hardware probes, the file system,
    and the library calls, each of which may answer differently as the
    history of calls grows. [Engine] is a loaded pipeline, [Image] a raw
    image. *)
Record externals (Engine Image : Type) : Type := {
  cuda_is_available : bool;
  mps_is_available : bool;
  os_path : filesystem;
  auto_from_pretrained : history -> string -> dtype -> result Engine;
  sd_from_pretrained : history -> string -> dtype -> result Engine;
  diffusion_from_pretrained : history -> string -> option string -> dtype -> result Engine;
  pipeline_to : history -> Engine -> device -> result Engine;
  has_enable_attention_slicing : Engine -> bool;
  enable_attention_slicing : history -> Engine -> result Engine;
  manual_seed : history -> device -> Z -> result unit;
  pipeline_call : history -> Engine -> call_args -> result (list Image);
  save_png : history -> Image -> result bytes;
  b64encode : bytes -> string;
  time_time : history -> Z;
  uvicorn_run : history -> string -> Z -> result unit;
  http_exception_str : Z -> string -> string
}.

Arguments cuda_is_available {Engine Image}.
Arguments mps_is_available {Engine Image}.
Arguments os_path {Engine Image}.
Arguments auto_from_pretrained {Engine Image}.
Arguments sd_from_pretrained {Engine Image}.
Arguments diffusion_from_pretrained {Engine Image}.
Arguments pipeline_to {Engine Image}.
Arguments has_enable_attention_slicing {Engine Image}.
Arguments enable_attention_slicing {Engine Image}.
Arguments manual_seed {Engine Image}.
Arguments pipeline_call {Engine Image}.
Arguments save_png {Engine Image}.
Arguments b64encode {Engine Image}.
Arguments time_time {Engine Image}.
Arguments uvicorn_run {Engine Image}.
Arguments http_exception_str {Engine Image}.

(** One write of the server's own code on [sys.stderr]: a record of its
    logger ([logging.basicConfig(level=logging.INFO)] puts a stream handler
    for [sys.stderr] on the root logger, and every [logger] call of the
    server is at level INFO or above), or the text of one
    [print(..., file=sys.stderr)]. *)
Inductive stderr_write : Type :=
| Logged (l : level) (m : log_msg)
| Printed (text : string).

(** The module globals and the three output channels. *)
Record world (Engine : Type) : Type := {
  pipeline : option Engine;
  current_model : option string;
  served_model_name : option string;
  trace : history;
  logs : list (level * log_msg);
  stderr : list stderr_write
}.

Arguments pipeline {Engine}.
Arguments current_model {Engine}.
Arguments served_model_name {Engine}.
Arguments trace {Engine}.
Arguments logs {Engine}.
Arguments stderr {Engine}.

(** [os.path.isfile]-backed test of the packaged single-file format. *)
Definition is_dduf_file (fs : filesystem) (path : string) : bool :=
  endswith (lower path) ".dduf" && isfile fs path.

(** The three sources of a model, as the two tests [load_model] makes in
    order tell them apart. *)
Inductive ModelSource : Type :=
| PackagedArchive (path : string)
| LocalDirectory (path : string)
| RemoteIdentifier (name : string).

Definition classify (fs : filesystem) (model_path : string) : ModelSource :=
  if is_dduf_file fs model_path then PackagedArchive model_path
  else if isdir fs model_path then LocalDirectory model_path
  else RemoteIdentifier model_path.

(** The request and response schemas of [/v1/images/generations]. *)
Inductive response_format : Type := Url | B64_json.

Record ImageGenerationRequest : Type := {
  req_model : string;
  req_prompt : string;
  req_n : Z;
  req_size : string;
  req_response_format : response_format;
  req_quality : option string;
  req_style : option string;
  req_negative_prompt : option string;
  req_num_inference_steps : Z;
  req_guidance_scale : float;
  req_seed : option Z
}.

Record ImageData : Type := {
  b64_json : option string;
  url : option string;
  revised_prompt : option string
}.

Record ImageGenerationResponse : Type := {
  created : Z;
  data : list ImageData
}.

(** The parsed command line of [main]. *)
Record args : Type := {
  arg_model_path : string;
  arg_host : string;
  arg_port : Z;
  arg_served_model_name : option string
}.

(** How [main] ends: it returns, or [sys.exit(status)] ends the process. *)
Inductive outcome : Type := Returned | Exit (status : Z).

(** Truth value of an optional string: [None] and the empty string are false. *)
Definition truthy (s : option string) : bool :=
  match s with Some (String _ _) => true | _ => false end.

(** [s != o] for a string and an optional string. *)
Definition differs (s : string) (o : option string) : bool :=
  match o with Some t => negb (String.eqb s t) | None => true end.

(** [f"{a or b}"] *)
Definition show_or (a b : option string) : string :=
  match a, b with
  | Some (String c r), _ => String c r
  | _, Some t => t
  | _, None => "None"
  end.

(** The loop of [main] that follows [__cause__] to its end. *)
Fixpoint root_cause (e : exn) : exn :=
  match e with
  | Exn _ _ (Some c) _ => root_cause c
  | Exn _ _ None _ => e
  end.

(** ** The server *)

Section Server.

Context {Engine Image : Type} (X : externals Engine Image).

(** A computation reads and writes the world and returns or raises. *)
Definition M (A : Type) : Type := world Engine -> result A * world Engine.

Definition ret {A} (a : A) : M A := fun w => (Ok a, w).

Definition raise {A} (e : exn) : M A := fun w => (Raise e, w).

Definition bind {A B} (m : M A) (k : A -> M B) : M B :=
  fun w => match m w with
           | (Ok a, w') => k a w'
           | (Raise e, w') => (Raise e, w')
           end.

Notation "x <- m ;; k" := (bind m (fun x => k))
  (at level 61, m at next level, right associativity).
Notation "m ;; k" := (bind m (fun _ => k))
  (at level 61, right associativity).

(** [try: m except Exception as e: h e]; what escapes the handler is
    chained to [e]. *)
Definition try_except {A} (m : M A) (h : exn -> M A) : M A :=
  fun w => match m w with
           | (Ok a, w') => (Ok a, w')
           | (Raise e, w') =>
               match h e w' with
               | (Ok a, w'') => (Ok a, w'')
               | (Raise e', w'') => (Raise (raised_while_handling e e'), w'')
               end
           end.

Definition get : M (world Engine) := fun w => (Ok w, w).

Definition set_pipeline (p : Engine) : M unit :=
  fun w => (Ok tt, {| pipeline := Some p; current_model := current_model w;
                      served_model_name := served_model_name w;
                      trace := trace w; logs := logs w; stderr := stderr w |}).

Definition set_current_model (m : string) : M unit :=
  fun w => (Ok tt, {| pipeline := pipeline w; current_model := Some m;
                      served_model_name := served_model_name w;
                      trace := trace w; logs := logs w; stderr := stderr w |}).

Definition set_served_model_name (m : string) : M unit :=
  fun w => (Ok tt, {| pipeline := pipeline w; current_model := current_model w;
                      served_model_name := Some m;
                      trace := trace w; logs := logs w; stderr := stderr w |}).

(** One call out of the server: the callee answers from the history so
    far, and the call joins the history. *)
Definition call {A} (ev : event) (f : history -> result A) : M A :=
  fun w => (f (trace w),
            {| pipeline := pipeline w; current_model := current_model w;
               served_model_name := served_model_name w;
               trace := (trace w ++ [ev])%list; logs := logs w; stderr := stderr w |}).

(** [logger.info], [logger.warning], [logger.exception]: the record goes
    to the logger and, through the handler of [logging.basicConfig], on
    [sys.stderr]. *)
Definition log (l : level) (m : log_msg) : M unit :=
  fun w => (Ok tt, {| pipeline := pipeline w; current_model := current_model w;
                      served_model_name := served_model_name w;
                      trace := trace w; logs := (logs w ++ [(l, m)])%list;
                      stderr := (stderr w ++ [Logged l m])%list |}).

(** [print(text, file=sys.stderr)] *)
Definition print_stderr (text : string) : M unit :=
  fun w => (Ok tt, {| pipeline := pipeline w; current_model := current_model w;
                      served_model_name := served_model_name w;
                      trace := trace w; logs := logs w;
                      stderr := (stderr w ++ [Printed text])%list |}).

Definition load_model_from_dduf (dduf_path : string) (dev : device) (dt : dtype)
  : M Engine :=
  log INFO (Loading_from_dduf dduf_path) ;;
  try_except
    (let dduf_dir := dirname dduf_path in
     let dduf_filename := basename dduf_path in
     log INFO (Using_directory dduf_dir) ;;
     log INFO (Using_dduf_filename dduf_filename) ;;
     pipe <- call (DiffusionPipeline_from_pretrained dduf_dir (Some dduf_filename) dt)
                  (fun h => diffusion_from_pretrained X h dduf_dir (Some dduf_filename) dt) ;;
     pipe <- call (Pipeline_to dev) (fun h => pipeline_to X h pipe dev) ;;
     log INFO (Loaded_from_dduf dev) ;;
     ret pipe)
    (fun e =>
       log ERROR (Error_loading_dduf e) ;;
       raise (new_exn RuntimeError ("Failed to load DDUF file: " ++ str e))).

(** The device and precision [load_model] settles on. *)
Definition select_device : device * dtype :=
  if cuda_is_available X then (Cuda, Float16)
  else if mps_is_available X then (Mps, Float16)
  else (Cpu, Float32).

(** [pipeline is not None and current_model == model_path], with the
    resident engine when it holds. *)
Definition already_loaded (w : world Engine) (model_path : string) : option Engine :=
  match pipeline w, current_model w with
  | Some p, Some m => if String.eqb m model_path then Some p else None
  | _, _ => None
  end.

Definition load_model (model_path : string) : M Engine :=
  w <- get ;;
  match already_loaded w model_path with
  | Some p => log INFO (Already_loaded model_path) ;; ret p
  | None =>
      log INFO (Loading_model model_path) ;;
      let '(dev, dt) := select_device in
      log INFO (Using_device dev dt) ;;
      if is_dduf_file (os_path X) model_path then
        p <- load_model_from_dduf model_path dev dt ;;
        set_pipeline p ;;
        set_current_model model_path ;;
        ret p
      else
        (if isdir (os_path X) model_path
         then log INFO (Loading_from_directory model_path) else ret tt) ;;
        p <- try_except
               (p <- call (AutoPipeline_from_pretrained model_path dt)
                          (fun h => auto_from_pretrained X h model_path dt) ;;
                set_pipeline p ;; ret p)
               (fun e =>
                  log WARNING (AutoPipeline_failed e) ;;
                  try_except
                    (p <- call (StableDiffusionPipeline_from_pretrained model_path dt)
                               (fun h => sd_from_pretrained X h model_path dt) ;;
                     set_pipeline p ;; ret p)
                    (fun e2 =>
                       log WARNING (StableDiffusionPipeline_failed e2) ;;
                       p <- call (DiffusionPipeline_from_pretrained model_path None dt)
                                 (fun h => diffusion_from_pretrained X h model_path None dt) ;;
                       set_pipeline p ;; ret p)) ;;
        p <- call (Pipeline_to dev) (fun h => pipeline_to X h p dev) ;;
        set_pipeline p ;;
        p <- (if has_enable_attention_slicing X p then
                p' <- call Enable_attention_slicing
                           (fun h => enable_attention_slicing X h p) ;;
                set_pipeline p' ;; ret p'
              else ret p) ;;
        set_current_model model_path ;;
        log INFO (Loaded_on dev) ;;
        ret p
  end.

(** The device of a generator: CUDA, else MPS, else the CPU of a plain
    [torch.Generator()]. *)
Definition generator_device : device :=
  if cuda_is_available X then Cuda
  else if mps_is_available X then Mps else Cpu.

(** [torch.Generator(device=...).manual_seed(seed)] *)
Definition seeded_generator (seed : Z) : M generator :=
  let dev := generator_device in
  call (Generator_manual_seed dev seed) (fun h => manual_seed X h dev seed) ;;
  ret {| gen_device := dev; gen_seed := seed |}.

(** [range(n)] *)
Definition range (n : Z) : list Z := map Z.of_nat (seq 0 (Z.to_nat n)).

(** The body of [for i in range(n)], run over the indices left, with the
    list [images] built so far. *)
Fixpoint generate_loop (p : Engine) (prompt : string) (width height : Z)
    (negative_prompt : option string) (num_inference_steps : Z)
    (guidance_scale : float) (seed : option Z) (gen : option generator)
    (indices : list Z) (images : list bytes) : M (list bytes) :=
  match indices with
  | [] => ret images
  | i :: rest =>
      current_generator <-
        match gen, seed with
        | Some _, Some s => g <- seeded_generator (s + i) ;; ret (Some g)
        | _, _ => ret None
        end ;;
      let args := {| arg_prompt := prompt;
                     arg_negative_prompt := negative_prompt;
                     arg_width := width;
                     arg_height := height;
                     arg_num_inference_steps := num_inference_steps;
                     arg_guidance_scale := guidance_scale;
                     arg_generator := current_generator |} in
      result_images <- call (Pipeline_call args) (fun h => pipeline_call X h p args) ;;
      image <- match result_images with
               | image :: _ => ret image
               | [] => raise (new_exn IndexError "list index out of range")
               end ;;
      png <- call Image_save_png (fun h => save_png X h image) ;;
      generate_loop p prompt width height negative_prompt num_inference_steps
        guidance_scale seed gen rest (images ++ [png])%list
  end.

Definition generate_images (prompt : string) (n width height : Z)
    (negative_prompt : option string) (num_inference_steps : Z)
    (guidance_scale : float) (seed : option Z) : M (list bytes) :=
  w <- get ;;
  match pipeline w with
  | None => raise (new_exn RuntimeError "No model loaded")
  | Some p =>
      gen <- match seed with
             | Some s => g <- seeded_generator s ;; ret (Some g)
             | None => ret None
             end ;;
      log INFO (Generating n (substring 0 100 prompt)) ;;
      images <- generate_loop p prompt width height negative_prompt
                  num_inference_steps guidance_scale seed gen (range n) [] ;;
      log INFO (Generated (List.length images)) ;;
      ret images
  end.

Definition lift {A} (r : result A) : M A := fun w => (r, w).

Definition http_exception (status_code : Z) (detail : string) : exn :=
  new_exn (HTTPException status_code detail) (http_exception_str X status_code detail).

(** The loop that wraps the images of one answer. *)
Fixpoint format_response (fmt : response_format) (image_bytes_list : list bytes)
    (acc : list ImageData) : M (list ImageData) :=
  match image_bytes_list with
  | [] => ret acc
  | img_bytes :: rest =>
      match fmt with
      | B64_json =>
          format_response fmt rest
            (acc ++ [{| b64_json := Some (b64encode X img_bytes);
                        url := None; revised_prompt := None |}])%list
      | Url =>
          raise (http_exception 400
                   "URL response format is not supported. Use 'b64_json' instead.")
      end
  end.

Definition create_image (request : ImageGenerationRequest) : M ImageGenerationResponse :=
  w <- get ;;
  let requested_model := req_model request in
  if truthy (served_model_name w)
     && differs requested_model (served_model_name w)
     && differs requested_model (current_model w)
  then
    raise (http_exception 421
             ("Model '" ++ requested_model ++ "' not loaded. Current model: "
                ++ show_or (served_model_name w) (current_model w)))
  else
    match pipeline w with
    | None => raise (http_exception 503 "No model loaded. Server is not ready.")
    | Some _ =>
        try_except
          (size <- lift (parse_size (req_size request)) ;;
           let '(width, height) := size in
           image_bytes_list <-
             generate_images (req_prompt request) (req_n request) width height
               (req_negative_prompt request) (req_num_inference_steps request)
               (req_guidance_scale request) (req_seed request) ;;
           items <- format_response (req_response_format request) image_bytes_list [] ;;
           now <- call Time_time (fun h => Ok (time_time X h)) ;;
           ret {| created := now; data := items |})
          (fun e =>
             if is_ValueError e then
               raise (http_exception 400 (str e))
             else
               log ERROR (Error_generating_image e) ;;
               raise (http_exception 500 ("Image generation failed: " ++ str e)))
    end.

Definition main (a : args) (w0 : world Engine) : outcome * world Engine :=
  let served := match arg_served_model_name a with
                | Some (String c r) => String c r
                | _ => arg_model_path a
                end in
  let w1 := snd (set_served_model_name served w0) in
  let guarded : M unit :=
    load_model (arg_model_path a) ;;
    log INFO (Starting_server (arg_host a) (arg_port a)) ;;
    call (Uvicorn_run (arg_host a) (arg_port a))
         (fun h => uvicorn_run X h (arg_host a) (arg_port a)) in
  match guarded w1 with
  | (Ok _, w) => (Returned, w)
  | (Raise e, w) =>
      let error_msg := str e in
      let root := root_cause e in
      let error_msg := match cause_of e with
                       | Some _ => str root
                       | None => error_msg
                       end in
      (Exit 1, snd (print_stderr ("DIFFUSERS_ERROR: " ++ error_msg) w))
  end.

End Server.

(** ** Reading a history *)

(** The texts printed on the error stream, in order, the logger's records
    left out. *)
Fixpoint printed (out : list stderr_write) : list string :=
  match out with
  | [] => []
  | Printed text :: r => text :: printed r
  | Logged _ _ :: r => printed r
  end.

(** The logger's records as they appear on the error stream. *)
Definition logged (records : list (level * log_msg)) : list stderr_write :=
  map (fun r => Logged (fst r) (snd r)) records.

Definition is_construction (ev : event) : bool :=
  match ev with
  | AutoPipeline_from_pretrained _ _
  | StableDiffusionPipeline_from_pretrained _ _
  | DiffusionPipeline_from_pretrained _ _ _ => true
  | _ => false
  end.

(** The pipeline constructions of a history, in order. *)
Definition constructions (h : history) : list event := filter is_construction h.

(** The generator handed to each engine call of a history, in order. *)
Fixpoint call_generators (h : history) : list (option generator) :=
  match h with
  | [] => []
  | Pipeline_call a :: r => arg_generator a :: call_generators r
  | _ :: r => call_generators r
  end.

(** The buffers the calls of a history stand for, [h] being the history
    before them: for each engine call in turn, answered from the history it
    was made in, the encoding of its first image, answered from the history
    the engine call has joined.  A call that raised or gave no image stands
    for no buffer. *)
Fixpoint call_buffers {Engine Image} (X : externals Engine Image) (p : Engine)
    (h new : history) : list bytes :=
  match new with
  | [] => []
  | Pipeline_call a :: rest =>
      let h' := (h ++ [Pipeline_call a])%list in
      match pipeline_call X h p a with
      | Ok (image :: _) =>
          match save_png X h' image with
          | Ok png => png :: call_buffers X p h' rest
          | Raise _ => call_buffers X p h' rest
          end
      | _ => call_buffers X p h' rest
      end
  | ev :: rest => call_buffers X p (h ++ [ev])%list rest
  end.

(** What one library call of a load makes of the engine in hand, answered
    from the history [h] it was made in: a constructor that returns gives
    a new engine, the move and the attention-slicing switch work on the
    one in hand, and a call that raises leaves it. *)
Definition engine_after {Engine Image} (X : externals Engine Image) (h : history)
    (ev : event) (held : option Engine) : option Engine :=
  let keep (r : result Engine) : option Engine :=
    match r with Ok p => Some p | Raise _ => held end in
  match ev with
  | AutoPipeline_from_pretrained path dt => keep (auto_from_pretrained X h path dt)
  | StableDiffusionPipeline_from_pretrained path dt => keep (sd_from_pretrained X h path dt)
  | DiffusionPipeline_from_pretrained path file dt =>
      keep (diffusion_from_pretrained X h path file dt)
  | Pipeline_to d =>
      match held with Some p => keep (pipeline_to X h p d) | None => None end
  | Enable_attention_slicing =>
      match held with Some p => keep (enable_attention_slicing X h p) | None => None end
  | _ => held
  end.

(** The engine the calls [new] build after the history [h], from the
    engine in hand. *)
Fixpoint engine_built {Engine Image} (X : externals Engine Image) (h new : history)
    (held : option Engine) : option Engine :=
  match new with
  | [] => held
  | ev :: rest => engine_built X (h ++ [ev])%list rest (engine_after X h ev held)
  end.

(** The exception a failed load of a packaged archive ends with, [e] being
    what the library raised. *)
Definition dduf_load_error (e : exn) : exn :=
  Exn RuntimeError ("Failed to load DDUF file: " ++ str e) None (Some e).

(** The default of [guidance_scale], 7.5. *)
Definition default_guidance_scale : float := S754_finite false 15 (-1).

(** The status an answer carries when it is an [HTTPException]. *)
Definition status_of {A} (r : result A) : option Z :=
  match r with
  | Raise (Exn (HTTPException code _) _ _ _) => Some code
  | _ => None
  end.

(** The end of the [__context__] chain: the exception that started it. *)
Fixpoint first_raised (e : exn) : exn :=
  match e with
  | Exn _ _ _ (Some c) => first_raised c
  | Exn _ _ _ None => e
  end.

(** Seeded generation and encoding that answer by their arguments alone,
    whatever happened before. *)
Definition deterministic_backend {Engine Image} (X : externals Engine Image) : Prop :=
  (forall h h' d s, manual_seed X h d s = manual_seed X h' d s) /\
  (forall h h' p a, arg_generator a <> None ->
                    pipeline_call X h p a = pipeline_call X h' p a) /\
  (forall h h' im, save_png X h im = save_png X h' im).

(** A backend none of whose generation steps raises. *)
Definition backend_never_raises {Engine Image} (X : externals Engine Image) : Prop :=
  (forall h d s, manual_seed X h d s = Ok tt) /\
  (forall h p a, exists im rest, pipeline_call X h p a = Ok (im :: rest)) /\
  (forall h im, exists b, save_png X h im = Ok b).

(** [out = []; for x in xs: out.append(f(x))] without state: the answers in
    order, or the first exception. *)
Fixpoint traverse {A B} (f : A -> result B) (xs : list A) : result (list B) :=
  match xs with
  | [] => Ok []
  | x :: r => rbind (f x) (fun y => rbind (traverse f r) (fun ys => Ok (y :: ys)))
  end.

Definition with_generator (a : call_args) (g : option generator) : call_args :=
  {| arg_prompt := arg_prompt a;
     arg_negative_prompt := arg_negative_prompt a;
     arg_width := arg_width a;
     arg_height := arg_height a;
     arg_num_inference_steps := arg_num_inference_steps a;
     arg_guidance_scale := arg_guidance_scale a;
     arg_generator := g |}.

(** Two runs agree on the answer, the history and the two globals. *)
Definition same_outcome {Engine A} (r l : result A * world Engine) : Prop :=
  fst r = fst l /\ trace (snd r) = trace (snd l) /\
  pipeline (snd r) = pipeline (snd l) /\
  current_model (snd r) = current_model (snd l).

(** The keyword arguments of the engine calls of one request, the generator
    apart. *)
Definition request_args (prompt : string) (width height : Z)
    (negative_prompt : option string) (num_inference_steps : Z)
    (guidance_scale : float) : call_args :=
  {| arg_prompt := prompt;
     arg_negative_prompt := negative_prompt;
     arg_width := width;
     arg_height := height;
     arg_num_inference_steps := num_inference_steps;
     arg_guidance_scale := guidance_scale;
     arg_generator := None |}.

(** The generator the loop of [generate_images] makes for index [i]: one
    seeded with [seed + i] when a seed was given, none otherwise. *)
Definition loop_generator (dev : device) (seed : option Z) (gen : option generator)
    (i : Z) : option generator :=
  match gen, seed with
  | Some _, Some s => Some {| gen_device := dev; gen_seed := s + i |}
  | _, _ => None
  end.

(** The image a deterministic backend gives for one seed: the generator is
    seeded, the engine called with it, its first image encoded.  History
    plays no part there, so the empty one stands for all. *)
Definition seeded_image {Engine Image} (X : externals Engine Image) (p : Engine)
    (a : call_args) (s : Z) : result bytes :=
  let g := {| gen_device := generator_device X; gen_seed := s |} in
  rbind (manual_seed X [] (gen_device g) s) (fun _ =>
  rbind (pipeline_call X [] p (with_generator a (Some g))) (fun images =>
  match images with
  | image :: _ => save_png X [] image
  | [] => Raise (new_exn IndexError "list index out of range")
  end)).

(** ** A scripted backend

    Engines are named by the constructor that built them, an image is the
    bytes of its seed, and each library call raises or not as the script
    says. *)

Record script : Type := {
  cuda : bool;
  files : list string;
  directories : list string;
  auto_raises : bool;
  sd_raises : bool;
  diffusion_raises : bool;
  to_raises : bool
}.

Definition seed_image (g : option generator) (h : history) : bytes :=
  match g with
  | Some g => [byte_of_ascii (ascii_of_N (Z.to_N (gen_seed g mod 256)))]
  | None => [byte_of_ascii (ascii_of_nat (List.length h mod 256))]
  end.

Definition scripted (s : script) : externals string bytes := {|
  cuda_is_available := cuda s;
  mps_is_available := false;
  os_path := fun p =>
    if existsb (String.eqb p) (files s) then Some RegularFile
    else if existsb (String.eqb p) (directories s) then Some Directory
    else None;
  auto_from_pretrained := fun _ path _ =>
    if auto_raises s then Raise (new_exn (OtherException "OSError") "no text-to-image pipeline")
    else Ok ("auto:" ++ path);
  sd_from_pretrained := fun _ path _ =>
    if sd_raises s then Raise (new_exn (OtherException "OSError") "not a stable diffusion model")
    else Ok ("sd:" ++ path);
  diffusion_from_pretrained := fun _ path _ _ =>
    if diffusion_raises s then Raise (new_exn (OtherException "OSError") "bad archive")
    else Ok ("diffusion:" ++ path);
  pipeline_to := fun _ p _ =>
    if to_raises s then Raise (new_exn RuntimeError "CUDA out of memory")
    else Ok p;
  has_enable_attention_slicing := fun _ => true;
  enable_attention_slicing := fun _ p => Ok p;
  manual_seed := fun _ _ _ => Ok tt;
  pipeline_call := fun h _ a => Ok [seed_image (arg_generator a) h];
  save_png := fun _ im => Ok im;
  b64encode := fun b => string_of_list_byte b;
  time_time := fun _ => 0;
  uvicorn_run := fun _ _ _ => Ok tt;
  http_exception_str := fun _ detail => detail
|}.

Definition healthy : script :=
  {| cuda := true;
     files := ["/models/sd.dduf"]; directories := ["/models/dir"];
     auto_raises := false; sd_raises := false; diffusion_raises := false;
     to_raises := false |}.

(** The archive is there and cannot be read. *)
Definition broken_archive : script :=
  {| cuda := true;
     files := ["/models/sd.dduf"]; directories := ["/models/dir"];
     auto_raises := false; sd_raises := false; diffusion_raises := true;
     to_raises := false |}.

(** The pipeline is built and does not fit on the accelerator. *)
Definition out_of_memory : script :=
  {| cuda := true;
     files := ["/models/sd.dduf"]; directories := ["/models/dir"];
     auto_raises := false; sd_raises := false; diffusion_raises := false;
     to_raises := true |}.

(** The auto-detecting constructor does not know the model, the Stable
    Diffusion one does. *)
Definition auto_rejects : script :=
  {| cuda := true;
     files := ["/models/sd.dduf"]; directories := ["/models/dir"];
     auto_raises := true; sd_raises := false; diffusion_raises := false;
     to_raises := false |}.

(** No constructor accepts the model. *)
Definition unloadable : script :=
  {| cuda := true;
     files := ["/models/sd.dduf"]; directories := ["/models/dir"];
     auto_raises := true; sd_raises := true; diffusion_raises := true;
     to_raises := false |}.

Definition empty_world : world string :=
  {| pipeline := None; current_model := None; served_model_name := None;
     trace := []; logs := []; stderr := [] |}.

(** A rendered number is made of digits only. *)
Definition all_digits (s : string) : bool :=
  forallb (fun c => match digit_value c with Some _ => true | None => false end)
          (list_ascii_of_string s).

(** A pipeline was loaded from [org/model] and is served as [sd]. *)
Definition serving_world : world string :=
  {| pipeline := Some "auto:org/model"; current_model := Some "org/model";
     served_model_name := Some "sd"; trace := []; logs := []; stderr := [] |}.

Definition sample_request (model : string) : ImageGenerationRequest :=
  {| req_model := model; req_prompt := "a cat"; req_n := 2; req_size := "512x512";
     req_response_format := B64_json; req_quality := Some "standard";
     req_style := None; req_negative_prompt := None;
     req_num_inference_steps := 50; req_guidance_scale := default_guidance_scale;
     req_seed := Some 7 |}.

Definition sample_args (model_path : string) : args :=
  {| arg_model_path := model_path; arg_host := "0.0.0.0"; arg_port := 8000;
     arg_served_model_name := None |}.

(** ** The other endpoints *)

(** The answer of [/health]. *)
Record HealthStatus : Type := {
  health_status : string;
  model_loaded : bool
}.

(** One entry of the answer of [/v1/models]. *)
Record ModelCard : Type := {
  card_id : string;
  card_object : string;
  card_created : Z;
  card_owned_by : string
}.

(** The answer of [/v1/models]. *)
Record ModelList : Type := {
  list_object : string;
  list_data : list ModelCard
}.

Section Endpoints.

Context {Engine Image : Type} (X : externals Engine Image).

Definition health : @M Engine HealthStatus :=
  bind get (fun w =>
  ret {| health_status := "healthy";
         model_loaded := match current_model w with Some _ => true | None => false end |}).

(** [{"id": name, "object": "model", "created": int(time.time()),
    "owned_by": "diffusers"}] *)
Definition model_card (name : string) : @M Engine ModelCard :=
  bind (call Time_time (fun h => Ok (time_time X h))) (fun now =>
  ret {| card_id := name; card_object := "model"; card_created := now;
         card_owned_by := "diffusers" |}).

Definition list_models : @M Engine ModelList :=
  bind get (fun w =>
  bind (match served_model_name w with
        | Some (String c r) =>
            bind (model_card (String c r)) (fun card => ret [card])
        | _ => ret []
        end) (fun models =>
  bind (match current_model w with
        | Some (String c r) =>
            if differs (String c r) (served_model_name w) then
              bind (model_card (String c r)) (fun card => ret (models ++ [card])%list)
            else ret models
        | _ => ret models
        end) (fun models =>
  ret {| list_object := "list"; list_data := models |}))).

End Endpoints.

(** ** Reading what a run changed *)

Definition is_loader_event (ev : event) : bool :=
  match ev with
  | AutoPipeline_from_pretrained _ _
  | StableDiffusionPipeline_from_pretrained _ _
  | DiffusionPipeline_from_pretrained _ _ _
  | Pipeline_to _
  | Enable_attention_slicing => true
  | _ => false
  end.

Definition is_generation_event (ev : event) : bool :=
  match ev with
  | Generator_manual_seed _ _
  | Pipeline_call _
  | Image_save_png => true
  | _ => false
  end.

Definition is_request_event (ev : event) : bool :=
  match ev with
  | Time_time => true
  | _ => is_generation_event ev
  end.

(** From [w] to [w'] the served name is untouched, nothing was printed on
    the error stream, which has grown by the records the logger has grown
    by, and the history has grown by calls that all pass [allowed]. *)
Definition appends {Engine} (allowed : event -> bool) (w w' : world Engine) : Prop :=
  served_model_name w' = served_model_name w /\
  (exists l, logs w' = (logs w ++ l)%list /\
             stderr w' = (stderr w ++ logged l)%list) /\
  (exists t, trace w' = (trace w ++ t)%list /\ forallb allowed t = true).

(** From [w] to [w'] the engine and the path it came from are the same. *)
Definition keeps_engine {Engine} (w w' : world Engine) : Prop :=
  pipeline w' = pipeline w /\ current_model w' = current_model w.

(** What a request may do to the world. *)
Definition request_frame {Engine} (allowed : event -> bool) (w w' : world Engine) : Prop :=
  appends allowed w w' /\ keeps_engine w w'.

(** Every run of [m] takes a world to one related to it by [R]. *)
Definition frames {Engine A} (R : world Engine -> world Engine -> Prop)
    (m : world Engine -> result A * world Engine) : Prop :=
  forall w, R w (snd (m w)).

(** An image in the envelope of the answer. *)
Definition b64_item {Engine Image} (X : externals Engine Image) (b : bytes) : ImageData :=
  {| b64_json := Some (b64encode X b); url := None; revised_prompt := None |}.

(** The detail an [HTTPException] answer carries. *)
Definition detail_of {A} (r : result A) : option string :=
  match r with
  | Raise (Exn (HTTPException _ detail) _ _ _) => Some detail
  | _ => None
  end.

(** The test [create_image] makes first, read positively: no served name is
    declared, or the requested model is the served name or the loaded path. *)
Definition passes_gate {Engine} (w : world Engine) (requested_model : string) : bool :=
  negb (truthy (served_model_name w)
        && differs requested_model (served_model_name w)
        && differs requested_model (current_model w)).

(** Calls of a request that came without a seed: inference with no
    generator, and PNG encoding. *)
Definition is_unseeded_event (ev : event) : bool :=
  match ev with
  | Pipeline_call a => match arg_generator a with None => true | Some _ => false end
  | Image_save_png => true
  | _ => false
  end.

Definition device_eqb (a b : device) : bool :=
  match a, b with
  | Cuda, Cuda | Mps, Mps | Cpu, Cpu => true
  | _, _ => false
  end.

Definition dtype_eqb (a b : dtype) : bool :=
  match a, b with
  | Float16, Float16 | Float32, Float32 => true
  | _, _ => false
  end.

(** Calls of a load that settled on the device [dev] and the precision
    [dt]: constructions in that precision, the move to that device, and the
    attention-slicing switch. *)
Definition loads_with (dev : device) (dt : dtype) (ev : event) : bool :=
  match ev with
  | AutoPipeline_from_pretrained _ t
  | StableDiffusionPipeline_from_pretrained _ t
  | DiffusionPipeline_from_pretrained _ _ t => dtype_eqb t dt
  | Pipeline_to d => device_eqb d dev
  | Enable_attention_slicing => true
  | _ => false
  end.

(** Calls of the load of a packaged archive: the generic constructor with
    an archive file name, and the move to the device. *)
Definition is_archive_event (ev : event) : bool :=
  match ev with
  | DiffusionPipeline_from_pretrained _ (Some _) _ => true
  | Pipeline_to _ => true
  | _ => false
  end.

(** What [/health] reports is never ahead of what generation needs: when a
    model path is recorded, an engine is resident. *)
Definition ready_if_loaded {Engine} (w : world Engine) : Prop :=
  current_model w <> None -> pipeline w <> None.

(** The ids a model list advertises, in order. *)
Definition advertised (l : ModelList) : list string := map card_id (list_data l).

(** A backend like [scripted healthy] whose engine refuses every call, as
    diffusers does for a height or width it cannot use. *)
Definition refusing_engine : externals string bytes :=
  let X := scripted healthy in
  {| cuda_is_available := cuda_is_available X;
     mps_is_available := mps_is_available X;
     os_path := os_path X;
     auto_from_pretrained := auto_from_pretrained X;
     sd_from_pretrained := sd_from_pretrained X;
     diffusion_from_pretrained := diffusion_from_pretrained X;
     pipeline_to := pipeline_to X;
     has_enable_attention_slicing := has_enable_attention_slicing X;
     enable_attention_slicing := enable_attention_slicing X;
     manual_seed := manual_seed X;
     pipeline_call := fun _ _ _ =>
       Raise (new_exn ValueError "`height` and `width` have to be divisible by 8");
     save_png := save_png X;
     b64encode := b64encode X;
     time_time := time_time X;
     uvicorn_run := uvicorn_run X;
     http_exception_str := http_exception_str X |}.

(** [sample_request] asking for links instead of base64 text. *)
Definition url_request (model : string) : ImageGenerationRequest :=
  {| req_model := model; req_prompt := "a cat"; req_n := 2; req_size := "512x512";
     req_response_format := Url; req_quality := Some "standard";
     req_style := None; req_negative_prompt := None;
     req_num_inference_steps := 50; req_guidance_scale := default_guidance_scale;
     req_seed := Some 7 |}.

(** The server was started as [sd] and nothing is loaded yet. *)
Definition starting_world : world string :=
  {| pipeline := None; current_model := None; served_model_name := Some "sd";
     trace := []; logs := []; stderr := [] |}.

(** * Properties *)

(** ** Strings *)

Lemma contains_char_cons (c d : ascii) (s : string) :
  contains_char c (String d s) = Ascii.eqb d c || contains_char c s.
Proof.
  unfold contains_char; simpl. now rewrite (Ascii.eqb_sym c d).
Qed.

Lemma split_not_nil (sep : ascii) (s : string) : split sep s <> [].
Proof.
  destruct s as [|c r]; simpl; [discriminate|].
  destruct (Ascii.eqb c sep); [discriminate|].
  destruct (split sep r); discriminate.
Qed.

Lemma split_one (sep : ascii) (s a : string) :
  split sep s = [a] <-> s = a /\ contains_char sep a = false.
Proof.
  revert a; induction s as [|c r IH]; intros a; simpl.
  - split.
    + intros H; inversion H; subst; now split.
    + intros [<- _]; reflexivity.
  - destruct (Ascii.eqb c sep) eqn:Ec.
    + split.
      * intros H; inversion H as [[Ha Hr]]. now apply split_not_nil in Hr.
      * intros [<- H]. rewrite contains_char_cons, Ec in H. discriminate.
    + destruct (split sep r) as [|h t] eqn:Er; [now apply split_not_nil in Er|].
      split.
      * intros H; inversion H; subst.
        destruct (proj1 (IH h) eq_refl) as [-> Hc].
        split; [reflexivity|]. now rewrite contains_char_cons, Ec.
      * intros [<- H]. rewrite contains_char_cons, Ec in H; simpl in H.
        pose proof (proj2 (IH r) (conj eq_refl H)) as E.
        inversion E; subst. reflexivity.
Qed.

(** [split] gives two parts exactly when the separator occurs once. *)
Lemma split_two (sep : ascii) (s a b : string) :
  split sep s = [a; b] <->
  s = a ++ String sep b /\ contains_char sep a = false /\ contains_char sep b = false.
Proof.
  revert a; induction s as [|c r IH]; intros a; simpl.
  - split; [discriminate|].
    intros [H _]. destruct a; discriminate.
  - destruct (Ascii.eqb c sep) eqn:Ec.
    + apply Ascii.eqb_eq in Ec; subst c. split.
      * intros H; inversion H as [[Ha Hr]]; subst a.
        apply split_one in Hr as [-> Hb]. now repeat split.
      * intros (H & Ha & Hb). destruct a as [|c' a'].
        -- simpl in H; inversion H; subst.
           now rewrite (proj2 (split_one sep b b) (conj eq_refl Hb)).
        -- simpl in H; inversion H; subst c'.
           rewrite contains_char_cons, Ascii.eqb_refl in Ha. discriminate.
    + destruct (split sep r) as [|h t] eqn:Er; [now apply split_not_nil in Er|].
      split.
      * intros H; inversion H; subst.
        destruct (proj1 (IH h) eq_refl) as (-> & Ha & Hb).
        repeat split; [|assumption]. now rewrite contains_char_cons, Ec.
      * intros (H & Ha & Hb). destruct a as [|c' a'].
        -- simpl in H; inversion H; subst. now rewrite Ascii.eqb_refl in Ec.
        -- simpl in H; inversion H; subst c' r.
           rewrite contains_char_cons, Ec in Ha; simpl in Ha.
           pose proof (proj2 (IH a') (conj eq_refl (conj Ha Hb))) as E.
           inversion E; subst. reflexivity.
Qed.

Lemma lower_app (a b : string) : lower (a ++ b) = lower a ++ lower b.
Proof. induction a as [|c a IH]; simpl; [reflexivity|now rewrite IH]. Qed.

(** ** Decimal literals *)

(** One turn of the digit loop on a literal digit. *)
Ltac digit_step :=
  cbn [scan_digits];
  match goal with
  | |- context [Ascii.eqb ?c "_"] => change (Ascii.eqb c "_") with false
  end;
  cbv iota;
  match goal with
  | |- context [digit_value ?c] =>
      let v := eval vm_compute in (digit_value c) in change (digit_value c) with v
  end;
  cbv iota.

Lemma scan_digits_uint_acc (d : uint) (acc : positive) :
  scan_digits (Zpos acc) false (NilEmpty.string_of_uint d)
  = Some (Zpos (Pos.of_uint_acc d acc), EmptyString).
Proof.
  revert acc; induction d; intros acc; cbn [NilEmpty.string_of_uint Pos.of_uint_acc];
    [reflexivity | ..];
    digit_step; rewrite <- IHd; f_equal; lia.
Qed.

Lemma scan_digits_uint (d : uint) :
  scan_digits 0 false (NilEmpty.string_of_uint d)
  = Some (Z.of_N (Pos.of_uint d), EmptyString).
Proof.
  induction d; cbn [NilEmpty.string_of_uint Pos.of_uint]; [reflexivity | ..];
    digit_step; try exact IHd; apply scan_digits_uint_acc.
Qed.

Lemma string_of_uint_digits (d : uint) : all_digits (NilEmpty.string_of_uint d) = true.
Proof. induction d; simpl; try reflexivity; exact IHd. Qed.

Lemma dec_not_empty (p : positive) : dec p <> EmptyString.
Proof.
  unfold dec. pose proof (Unsigned.to_uint_nonnil p) as H.
  destruct (Pos.to_uint p); simpl; congruence.
Qed.


Lemma digit_char (c : ascii) (v : Z) :
  digit_value c = Some v ->
  lower_char c = c /\ Ascii.eqb c "x" = false /\ is_space c = false /\
  Ascii.eqb c "+" = false /\ Ascii.eqb c "-" = false.
Proof.
  destruct c as [[] [] [] [] [] [] [] []]; vm_compute; intros H;
    try discriminate H; repeat split.
Qed.

Lemma all_digits_cons (c : ascii) (s : string) :
  all_digits (String c s) = true ->
  (exists v, digit_value c = Some v) /\ all_digits s = true.
Proof.
  unfold all_digits; simpl. destruct (digit_value c) as [v|]; [|discriminate].
  intros H; split; [now exists v|exact H].
Qed.

Lemma all_digits_lower (s : string) : all_digits s = true -> lower s = s.
Proof.
  induction s as [|c r IH]; [reflexivity|].
  intros H; apply all_digits_cons in H as [[v Hv] Hr].
  simpl. rewrite (IH Hr). now destruct (digit_char c v Hv) as (-> & _).
Qed.

Lemma all_digits_no_x (s : string) : all_digits s = true -> contains_char "x" s = false.
Proof.
  induction s as [|c r IH]; [reflexivity|].
  intros H; apply all_digits_cons in H as [[v Hv] Hr].
  rewrite contains_char_cons, (IH Hr).
  now destruct (digit_char c v Hv) as (_ & -> & _).
Qed.

Lemma count_digits_all_digits (s : string) :
  all_digits s = true -> count_digits s = N.of_nat (String.length s).
Proof.
  induction s as [|c r IH]; [reflexivity|].
  intros H; apply all_digits_cons in H as [[v Hv] Hr].
  cbn [count_digits String.length]. rewrite Hv, (IH Hr).
  replace (Ascii.eqb c "_") with false; [lia|].
  destruct c as [[] [] [] [] [] [] [] []]; try reflexivity; discriminate Hv.
Qed.

(** What [int] makes of a rendered positive number: it reads it back when
    it has at most 4300 digits and refuses it for its length otherwise. *)
Lemma read_int_dec (p : positive) :
  read_int (dec p)
  = if (int_max_str_digits <? N.of_nat (String.length (dec p)))%N
    then Exceeds_limit (N.of_nat (String.length (dec p)))
    else Int_value (Zpos p).
Proof.
  pose proof (dec_not_empty p) as Hne.
  pose proof (string_of_uint_digits (Pos.to_uint p)) as Hd.
  pose proof (scan_digits_uint (Pos.to_uint p)) as Hs.
  rewrite Unsigned.of_to in Hs. fold (dec p) in Hd, Hs.
  pose proof (count_digits_all_digits _ Hd) as Hc.
  unfold read_int. destruct (dec p) as [|c r]; [congruence|].
  apply all_digits_cons in Hd as [[v Hv] _].
  destruct (digit_char c v Hv) as (_ & _ & Hsp & Hplus & Hminus).
  cbn [skip_spaces]. rewrite Hsp. unfold take_sign. rewrite Hplus, Hminus, Hv, Hs, Hc.
  reflexivity.
Qed.

(** [int] reads back a rendered positive number of at most 4300 digits. *)
Lemma py_int_dec (p : positive) : within_int_limit p -> py_int (dec p) = Some (Zpos p).
Proof.
  intros Hl. unfold py_int. rewrite read_int_dec.
  apply N.ltb_ge in Hl. now rewrite Hl.
Qed.

(** [int] refuses a rendered number of more than 4300 digits. *)
Lemma py_int_dec_too_long (p : positive) : ~ within_int_limit p -> py_int (dec p) = None.
Proof.
  intros Hl. unfold py_int. rewrite read_int_dec.
  apply N.nle_gt, N.ltb_lt in Hl. now rewrite Hl.
Qed.

Lemma parse_size_of_parts (size a b : string) (w h : Z) :
  lower size = a ++ String "x" b ->
  contains_char "x" a = false -> contains_char "x" b = false ->
  py_int a = Some w -> py_int b = Some h ->
  parse_size size = Ok (w, h).
Proof.
  intros Hl Ha Hb Hw Hh. unfold parse_size.
  rewrite (proj2 (split_two "x" (lower size) a b) (conj Hl (conj Ha Hb))).
  cbn [List.length Nat.eqb negb nth]. unfold int. rewrite Hw, Hh. reflexivity.
Qed.

Lemma parse_size_dec (W H : positive) :
  within_int_limit W -> within_int_limit H ->
  parse_size (dec W ++ "x" ++ dec H) = Ok (Zpos W, Zpos H) /\
  parse_size (dec W ++ "X" ++ dec H) = Ok (Zpos W, Zpos H).
Proof.
  intros LW LH.
  pose proof (string_of_uint_digits (Pos.to_uint W)) as HW.
  pose proof (string_of_uint_digits (Pos.to_uint H)) as HH.
  fold (dec W) in HW. fold (dec H) in HH.
  split; apply (parse_size_of_parts _ (dec W) (dec H));
    try (apply all_digits_no_x; assumption); try (apply py_int_dec; assumption);
    rewrite lower_app; cbn [append lower];
    rewrite (all_digits_lower _ HW), (all_digits_lower _ HH); reflexivity.
Qed.

(** ** parse_size *)

Lemma int_pair_string_split (size : string) (w h : Z) :
  int_pair_string size w h <->
  exists a b, split "x" (lower size) = [a; b] /\ py_int a = Some w /\ py_int b = Some h.
Proof.
  unfold int_pair_string; split; intros (a & b & H); exists a, b.
  - destruct H as (Hl & Ha & Hb & Hw & Hh).
    split; [|now split]. apply split_two. now repeat split.
  - destruct H as (Hs & Hw & Hh). apply split_two in Hs as (Hl & Ha & Hb).
    now repeat split.
Qed.

Lemma zero_by_zero_not_positive : ~ positive_size_string "0x0".
Proof.
  intros (W & H & E).
  assert (El : lower "0x0" = dec W ++ String "x" (dec H)).
  { pose proof (string_of_uint_digits (Pos.to_uint W)) as HW.
    pose proof (string_of_uint_digits (Pos.to_uint H)) as HH.
    fold (dec W) in HW. fold (dec H) in HH.
    destruct E as [-> | ->]; rewrite lower_app; cbn [append lower];
      rewrite (all_digits_lower _ HW), (all_digits_lower _ HH); reflexivity. }
  assert (Hs : split "x" (lower "0x0") = [dec W; dec H]).
  { apply split_two. repeat split; [exact El | |];
      apply all_digits_no_x, string_of_uint_digits. }
  change (split "x" (lower "0x0")) with ["0"; "0"] in Hs.
  injection Hs as HW HH.
  assert (LW : within_int_limit W).
  { unfold within_int_limit. rewrite <- HW. cbv. discriminate. }
  pose proof (py_int_dec W LW) as P. rewrite <- HW in P.
  cbv in P. discriminate P.
Qed.

(** C4, as the specification words it, fails on a zero size: the string is
    not a pair of positive integers, and [parse_size] returns. *)
Lemma parse_size_accepts_zero :
  ~ positive_size_string "0x0" /\ parse_size "0x0" = Ok (0, 0).
Proof. split; [exact zero_by_zero_not_positive | reflexivity]. Qed.

(** Every string either is a pair that [int] reads and is returned as
    such, or is refused with a [ValueError] that quotes it. *)
Lemma parse_size_described (size : string) :
  match parse_size size with
  | Ok (w, h) => int_pair_string size w h
  | Raise e =>
      exn_cls e = ValueError /\
      (exists inner, context_of e = Some inner /\
         str e = "Invalid size format '" ++ size
                   ++ "'. Expected format like '512x512': " ++ str inner) /\
      (forall w h, ~ int_pair_string size w h)
  end.
Proof.
  unfold parse_size.
  destruct (split "x" (lower size)) as [|a [|b [|c t]]] eqn:E;
    cbn [List.length Nat.eqb negb nth rbind].
  1,2,4: (split; [reflexivity|]; split;
          [eexists; split; reflexivity|];
          intros w h Hp; apply int_pair_string_split in Hp as (a' & b' & Hs & _);
          rewrite E in Hs; discriminate Hs).
  unfold int.
  destruct (py_int a) as [w|] eqn:Ha; cbn [rbind].
  - destruct (py_int b) as [h|] eqn:Hb; cbn [rbind].
    + apply int_pair_string_split. now exists a, b.
    + split; [reflexivity|]. split; [eexists; split; reflexivity|].
      intros w' h' Hp; apply int_pair_string_split in Hp as (a' & b' & Hs & _ & Hh).
      rewrite E in Hs. inversion Hs; subst. congruence.
  - split; [reflexivity|]. split; [eexists; split; reflexivity|].
    intros w' h' Hp; apply int_pair_string_split in Hp as (a' & b' & Hs & Hw & _).
    rewrite E in Hs. inversion Hs; subst. congruence.
Qed.

Lemma split_dec_pair (W H : positive) :
  split "x" (lower (dec W ++ "x" ++ dec H)) = [dec W; dec H].
Proof.
  pose proof (string_of_uint_digits (Pos.to_uint W)) as HW.
  pose proof (string_of_uint_digits (Pos.to_uint H)) as HH.
  fold (dec W) in HW. fold (dec H) in HH.
  apply split_two. repeat split; try (apply all_digits_no_x; assumption).
  rewrite lower_app; cbn [append lower].
  now rewrite (all_digits_lower _ HW), (all_digits_lower _ HH).
Qed.

(** C4, amended: [parse_size] returns [(W, H)] on every ["WxH"] and ["WXH"]
    with positive [W] and [H] of at most 4300 digits each, the bound [int]
    puts on a literal, and refuses ["WxH"] when one of them is longer; in
    general it returns exactly on the strings whose lower-cased form is
    two parts around one [x] that [int] reads, zero and negative numbers
    included, and on every other string raises a [ValueError] whose text
    quotes the string and whose context is the first failure. *)
Theorem parse_size_reads_two_ints :
  (forall W H : positive,
      within_int_limit W -> within_int_limit H ->
      parse_size (dec W ++ "x" ++ dec H) = Ok (Zpos W, Zpos H) /\
      parse_size (dec W ++ "X" ++ dec H) = Ok (Zpos W, Zpos H)) /\
  (forall W H : positive,
      ~ (within_int_limit W /\ within_int_limit H) ->
      exists e, parse_size (dec W ++ "x" ++ dec H) = Raise e /\
                exn_cls e = ValueError) /\
  (forall size : string,
      match parse_size size with
      | Ok (w, h) => int_pair_string size w h
      | Raise e =>
          exn_cls e = ValueError /\
          (exists inner, context_of e = Some inner /\
             str e = "Invalid size format '" ++ size
                       ++ "'. Expected format like '512x512': " ++ str inner) /\
          (forall w h, ~ int_pair_string size w h)
      end) /\
  parse_size "0x0" = Ok (0, 0) /\
  parse_size "-1x5" = Ok (-1, 5).
Proof.
  split; [exact parse_size_dec|]. split; [|split; [exact parse_size_described|]].
  - intros W H Hnot.
    pose proof (parse_size_described (dec W ++ "x" ++ dec H)) as D.
    destruct (parse_size (dec W ++ "x" ++ dec H)) as [[w h]|e].
    + exfalso. apply int_pair_string_split in D as (a & b & Hs & Ha & Hb).
      rewrite split_dec_pair in Hs. injection Hs as <- <-.
      apply Hnot. split.
      * destruct (N.le_decidable (N.of_nat (String.length (dec W))) int_max_str_digits)
          as [L|L]; [exact L|].
        rewrite (py_int_dec_too_long W L) in Ha. discriminate Ha.
      * destruct (N.le_decidable (N.of_nat (String.length (dec H))) int_max_str_digits)
          as [L|L]; [exact L|].
        rewrite (py_int_dec_too_long H L) in Hb. discriminate Hb.
    + exists e. split; [reflexivity|exact (proj1 D)].
  - split; reflexivity.
Qed.

(** ** Packaged-archive detection *)

Lemma substring_all (s : string) : substring 0 (String.length s) s = s.
Proof. induction s as [|c r IH]; simpl; [reflexivity|now rewrite IH]. Qed.

Lemma substring_app_tail (a b : string) :
  substring (String.length a) (String.length b) (a ++ b) = b.
Proof. induction a as [|c a IH]; simpl; [apply substring_all|exact IH]. Qed.

Lemma substring_cut (n : nat) (s : string) :
  (n <= String.length s)%nat ->
  s = substring 0 n s ++ substring n (String.length s - n) s.
Proof.
  revert n; induction s as [|c r IH]; intros [|n] H; simpl in *;
    try reflexivity; try lia.
  - now rewrite substring_all.
  - f_equal. apply IH. lia.
Qed.

Lemma lower_length (s : string) : String.length (lower s) = String.length s.
Proof. induction s as [|c r IH]; simpl; [reflexivity|now rewrite IH]. Qed.

Lemma lower_substring (n m : nat) (s : string) :
  lower (substring n m s) = substring n m (lower s).
Proof.
  revert n m; induction s as [|c r IH]; intros [|n] [|m]; simpl;
    try reflexivity; try apply IH.
  now rewrite IH.
Qed.

Lemma string_length_app (a b : string) :
  String.length (a ++ b) = (String.length a + String.length b)%nat.
Proof. induction a as [|c a IH]; simpl; [reflexivity|now rewrite IH]. Qed.

(** [endswith] after [lower] is a case-blind test of the last characters. *)
Lemma endswith_lower (path suffix : string) :
  endswith (lower path) suffix = true <->
  exists stem ext, path = stem ++ ext /\ lower ext = suffix.
Proof.
  unfold endswith. rewrite lower_length, andb_true_iff, Nat.leb_le, String.eqb_eq.
  set (n := String.length path). set (k := String.length suffix).
  split.
  - intros [Hk Hs].
    exists (substring 0 (n - k) path), (substring (n - k) k path). split.
    + pose proof (substring_cut (n - k) path ltac:(lia)) as E.
      fold n in E. now replace (n - (n - k))%nat with k in E by lia.
    + now rewrite lower_substring.
  - intros (stem & ext & -> & Hl).
    assert (Hk : String.length ext = k) by (unfold k; now rewrite <- Hl, lower_length).
    assert (Hn : n = (String.length stem + k)%nat).
    { subst n. rewrite string_length_app. lia. }
    split; [lia|].
    replace (n - k)%nat with (String.length (lower stem)) by (rewrite lower_length; lia).
    rewrite lower_app, <- Hl. unfold k. rewrite <- Hl.
    apply substring_app_tail.
Qed.

Lemma endswith_suffix (s suffix : string) :
  endswith s suffix = true <-> exists stem, s = stem ++ suffix.
Proof.
  unfold endswith. rewrite andb_true_iff, Nat.leb_le, String.eqb_eq.
  set (n := String.length s). set (k := String.length suffix).
  split.
  - intros [Hk Hs]. exists (substring 0 (n - k) s).
    pose proof (substring_cut (n - k) s ltac:(lia)) as E.
    fold n in E. replace (n - (n - k))%nat with k in E by lia.
    now rewrite Hs in E.
  - intros (stem & ->).
    assert (Hn : n = (String.length stem + k)%nat)
      by (subst n; now rewrite string_length_app).
    split; [lia|].
    replace (n - k)%nat with (String.length stem) by lia.
    apply substring_app_tail.
Qed.

Lemma contains_char_app (c : ascii) (a b : string) :
  contains_char c (a ++ b) = contains_char c a || contains_char c b.
Proof.
  induction a as [|d a IH]; [reflexivity|].
  cbn [append]. rewrite !contains_char_cons, IH. now rewrite orb_assoc.
Qed.

(** A suffix without a slash ends a path exactly when it ends what follows
    the last slash. *)
Lemma endswith_after_last_slash (p suffix : string) :
  contains_char "/" suffix = false ->
  endswith p suffix = endswith (after_last_slash p) suffix.
Proof.
  intros Hs. induction p as [|c r IH]; [reflexivity|].
  assert (Step : contains_char "/" (String c r) = true ->
                 endswith (String c r) suffix = endswith r suffix).
  { intros Hc. apply eq_true_iff_eq. rewrite !endswith_suffix. split.
    - intros ([|d stem] & E).
      + cbn [append] in E. rewrite <- E, Hc in Hs. discriminate.
      + cbn [append] in E. injection E as _ ->. now exists stem.
    - intros (stem & ->). now exists (String c stem). }
  cbn [after_last_slash].
  destruct (contains_char "/" r) eqn:Hr.
  - rewrite <- IH. apply Step. rewrite contains_char_cons, Hr. apply orb_true_r.
  - destruct (Ascii.eqb c "/") eqn:Hc; [|reflexivity].
    apply Step. now rewrite contains_char_cons, Hc.
Qed.

Lemma lower_char_slash (c : ascii) :
  Ascii.eqb (lower_char c) "/" = Ascii.eqb c "/".
Proof. destruct c as [[] [] [] [] [] [] [] []]; reflexivity. Qed.

Lemma contains_slash_lower (s : string) :
  contains_char "/" (lower s) = contains_char "/" s.
Proof.
  induction s as [|c r IH]; [reflexivity|].
  cbn [lower]. now rewrite !contains_char_cons, IH, lower_char_slash.
Qed.

Lemma lower_after_last_slash (p : string) :
  lower (after_last_slash p) = after_last_slash (lower p).
Proof.
  induction p as [|c r IH]; [reflexivity|].
  cbn [lower after_last_slash]. rewrite contains_slash_lower, lower_char_slash.
  destruct (contains_char "/" r); [exact IH|].
  now destruct (Ascii.eqb c "/").
Qed.

(** The extension test on the path is the extension test on its file name. *)
Lemma dduf_extension_of_basename (path : string) :
  endswith (lower path) ".dduf" = endswith (lower (basename path)) ".dduf".
Proof.
  unfold basename. rewrite lower_after_last_slash.
  now apply endswith_after_last_slash.
Qed.

(** ** The loader *)

(** Unfolds the plumbing of [M], leaving the answers of the library and the
    reads of the world as they are. *)
Ltac unfold_monad :=
  unfold try_except, bind, get, log, call, ret, raise, lift,
         set_pipeline, set_current_model, set_served_model_name, print_stderr.

(** Runs the plumbing of [M] through the loader, in the goal or in [H]. *)
Ltac run_monad :=
  cbv [load_model load_model_from_dduf try_except bind get log call ret raise lift
       set_pipeline set_current_model set_served_model_name print_stderr];
  cbn [pipeline current_model served_model_name trace logs stderr fst snd
       raised_while_handling new_exn].

Ltac run_monad_in H :=
  cbv [load_model load_model_from_dduf try_except bind get log call ret raise lift
       set_pipeline set_current_model set_served_model_name print_stderr] in H;
  cbn [pipeline current_model served_model_name trace logs stderr fst snd
       raised_while_handling new_exn] in H.

Section Loader.
Context {Engine Image : Type} (X : externals Engine Image).

(** A call for the model that is resident. *)
Lemma load_model_resident (model_path : string) (w : world Engine) (p : Engine) :
  already_loaded w model_path = Some p ->
  let r := load_model X model_path w in
  fst r = Ok p /\ trace (snd r) = trace w /\
  pipeline (snd r) = pipeline w /\ current_model (snd r) = current_model w.
Proof.
  intros Hl r. subst r. unfold load_model. unfold_monad. rewrite Hl.
  now repeat split.
Qed.

(** What one run of [load_model] does on a packaged archive that is not
    resident, read off the answers of the library. *)
Lemma load_model_archive (model_path : string) (w : world Engine) :
  is_dduf_file (os_path X) model_path = true ->
  already_loaded w model_path = None ->
  let dev := fst (select_device X) in
  let dt := snd (select_device X) in
  let built :=
    DiffusionPipeline_from_pretrained (dirname model_path)
      (Some (basename model_path)) dt in
  let r := load_model X model_path w in
  match diffusion_from_pretrained X (trace w) (dirname model_path)
          (Some (basename model_path)) dt with
  | Raise e0 =>
      fst r = Raise (dduf_load_error e0) /\ trace (snd r) = (trace w ++ [built])%list /\
      pipeline (snd r) = pipeline w /\ current_model (snd r) = current_model w
  | Ok p =>
      match pipeline_to X (trace w ++ [built])%list p dev with
      | Raise e1 =>
          fst r = Raise (dduf_load_error e1) /\
          trace (snd r) = (trace w ++ [built; Pipeline_to dev])%list /\
          pipeline (snd r) = pipeline w /\ current_model (snd r) = current_model w
      | Ok p' =>
          fst r = Ok p' /\
          trace (snd r) = (trace w ++ [built; Pipeline_to dev])%list /\
          pipeline (snd r) = Some p' /\ current_model (snd r) = Some model_path
      end
  end.
Proof.
  intros Hd Hl dev dt built r.
  assert (Hsel : select_device X = (dev, dt))
    by (subst dev dt; now destruct (select_device X)).
  set (dduf_dir := dirname model_path) in *.
  set (dduf_filename := basename model_path) in *.
  assert (Er : r = load_model X model_path w) by reflexivity. clearbody r.
  cbv [load_model bind get] in Er. rewrite Hl, Hsel, Hd in Er.
  run_monad_in Er. fold dduf_dir dduf_filename built in Er.
  destruct (diffusion_from_pretrained X (trace w) dduf_dir (Some dduf_filename) dt)
    as [p|e0]; cbn -[append] in Er;
    [destruct (pipeline_to X _ p dev) as [p'|e1]; cbn -[append] in Er|];
    subst r; cbn -[append]; rewrite <- ?app_assoc; repeat split.
Qed.

(** What one run of [load_model] does when the model is neither resident
    nor a packaged archive, read off the answers of the library. *)
Lemma load_model_ladder (model_path : string) (w : world Engine) :
  is_dduf_file (os_path X) model_path = false ->
  already_loaded w model_path = None ->
  let dev := fst (select_device X) in
  let dt := snd (select_device X) in
  let r := load_model X model_path w in
  let h1 := (trace w ++ [AutoPipeline_from_pretrained model_path dt])%list in
  let h2 := (h1 ++ [StableDiffusionPipeline_from_pretrained model_path dt])%list in
  let h3 := (h2 ++ [DiffusionPipeline_from_pretrained model_path None dt])%list in
  let after (p : Engine) (h : history) : Prop :=
    match pipeline_to X h p dev with
    | Raise e =>
        fst r = Raise e /\ trace (snd r) = (h ++ [Pipeline_to dev])%list /\
        pipeline (snd r) = Some p /\ current_model (snd r) = current_model w
    | Ok p' =>
        if has_enable_attention_slicing X p' then
          match enable_attention_slicing X (h ++ [Pipeline_to dev])%list p' with
          | Raise e =>
              fst r = Raise e /\
              trace (snd r) = (h ++ [Pipeline_to dev; Enable_attention_slicing])%list /\
              pipeline (snd r) = Some p' /\ current_model (snd r) = current_model w
          | Ok p'' =>
              fst r = Ok p'' /\
              trace (snd r) = (h ++ [Pipeline_to dev; Enable_attention_slicing])%list /\
              pipeline (snd r) = Some p'' /\ current_model (snd r) = Some model_path
          end
        else
          fst r = Ok p' /\ trace (snd r) = (h ++ [Pipeline_to dev])%list /\
          pipeline (snd r) = Some p' /\ current_model (snd r) = Some model_path
    end in
  match auto_from_pretrained X (trace w) model_path dt with
  | Ok p => after p h1
  | Raise e1 =>
      match sd_from_pretrained X h1 model_path dt with
      | Ok p => after p h2
      | Raise e2 =>
          match diffusion_from_pretrained X h2 model_path None dt with
          | Ok p => after p h3
          | Raise e3 =>
              fst r = Raise (raised_while_handling e1 (raised_while_handling e2 e3)) /\
              trace (snd r) = h3 /\
              pipeline (snd r) = pipeline w /\ current_model (snd r) = current_model w
          end
      end
  end.
Proof.
  intros Hd Hl dev dt r h1 h2 h3 after.
  assert (Hsel : select_device X = (dev, dt))
    by (subst dev dt; now destruct (select_device X)).
  assert (Er : r = load_model X model_path w) by reflexivity. clearbody r.
  cbv [load_model bind get] in Er. rewrite Hl, Hsel, Hd in Er.
  assert (T : forall (l : list event) a b, ((l ++ [a]) ++ [b] = l ++ [a; b])%list)
    by (intros; now rewrite <- app_assoc).
  subst after h3 h2 h1. revert Er.
  destruct (isdir (os_path X) model_path); run_monad;
    (destruct (auto_from_pretrained X (trace w) model_path dt) as [p1|e1];
     [|destruct (sd_from_pretrained X _ model_path dt) as [p2|e2];
       [|destruct (diffusion_from_pretrained X _ model_path None dt) as [p3|e3]]]);
    cbv beta iota; cbn [trace];
    try (match goal with
         | |- context [pipeline_to X ?h ?q dev] =>
             destruct (pipeline_to X h q dev) as [p'|e'];
             cbv beta iota; cbn [trace];
             [destruct (has_enable_attention_slicing X p');
              cbv beta iota; cbn [trace];
              [match goal with
               | |- context [enable_attention_slicing X ?h' p'] =>
                   destruct (enable_attention_slicing X h' p') as [p''|e'']
               end|]|]
         end);
    intros ->; cbn -[append]; rewrite ?T; repeat split.
Qed.

End Loader.

(** ** Which way a load goes *)

Section Routes.
Context {Engine Image : Type} (X : externals Engine Image).

(** The history of a fresh load starts with the construction its source
    calls for. *)
Lemma load_model_first_call (model_path : string) (w : world Engine) :
  already_loaded w model_path = None ->
  exists rest,
    trace (snd (load_model X model_path w)) =
    (trace w ++
       match classify (os_path X) model_path with
       | PackagedArchive p =>
           DiffusionPipeline_from_pretrained (dirname p) (Some (basename p))
             (snd (select_device X))
       | LocalDirectory p | RemoteIdentifier p =>
           AutoPipeline_from_pretrained p (snd (select_device X))
       end :: rest)%list.
Proof.
  intros Hl. unfold classify.
  destruct (is_dduf_file (os_path X) model_path) eqn:Hd.
  - pose proof (load_model_archive X model_path w Hd Hl) as L. cbv zeta in L.
    destruct (diffusion_from_pretrained X _ _ _ _);
      [destruct (pipeline_to X _ _ _)|];
      destruct L as (_ & Ht & _); rewrite Ht; eexists; reflexivity.
  - pose proof (load_model_ladder X model_path w Hd Hl) as L. cbv zeta in L.
    assert (G : exists rest,
               trace (snd (load_model X model_path w)) =
               (trace w ++ AutoPipeline_from_pretrained model_path (snd (select_device X))
                  :: rest)%list).
    { destruct (auto_from_pretrained X _ model_path _);
        [|destruct (sd_from_pretrained X _ model_path _);
          [|destruct (diffusion_from_pretrained X _ model_path None _)]];
        try (destruct (pipeline_to X _ _ _);
             [destruct (has_enable_attention_slicing X _);
              [destruct (enable_attention_slicing X _ _)|]|]);
        repeat match type of L with _ /\ _ => destruct L as [? L] end;
        match goal with H : trace _ = _ |- _ => rewrite H end;
        rewrite <- ?app_assoc; cbn [app]; eexists; reflexivity. }
    destruct (isdir (os_path X) model_path); exact G.
Qed.

Lemma isfile_regular (fs : filesystem) (path : string) :
  isfile fs path = true <-> fs path = Some RegularFile.
Proof.
  unfold isfile. destruct (fs path) as [[]|]; split; congruence.
Qed.

(** C5: a path is a packaged archive exactly when its file name ends with
    the extension in either case and a regular file is there; what the
    file system holds at the path decides the rest, a path with nothing
    behind it being a remote identifier; and a fresh load starts with the
    construction of the source so found. *)
Theorem classify_packaged_archive (model_path : string) (w : world Engine) :
  already_loaded w model_path = None ->
  let fs := os_path X in
  (classify fs model_path = PackagedArchive model_path <->
     (exists stem ext, basename model_path = stem ++ ext /\ lower ext = ".dduf") /\
     fs model_path = Some RegularFile) /\
  classify fs model_path =
    match fs model_path with
    | Some RegularFile =>
        if endswith (lower model_path) ".dduf" then PackagedArchive model_path
        else RemoteIdentifier model_path
    | Some Directory => LocalDirectory model_path
    | Some OtherNode | None => RemoteIdentifier model_path
    end /\
  exists rest,
    trace (snd (load_model X model_path w)) =
    (trace w ++
       match classify fs model_path with
       | PackagedArchive p =>
           DiffusionPipeline_from_pretrained (dirname p) (Some (basename p))
             (snd (select_device X))
       | LocalDirectory p | RemoteIdentifier p =>
           AutoPipeline_from_pretrained p (snd (select_device X))
       end :: rest)%list.
Proof.
  intros Hl fs. split; [|split].
  - rewrite <- endswith_lower, <- dduf_extension_of_basename, <- isfile_regular,
    <- andb_true_iff.
    fold (is_dduf_file fs model_path). unfold classify.
    destruct (is_dduf_file fs model_path).
    + split; reflexivity.
    + split; [|discriminate]. destruct (isdir fs model_path); discriminate.
  - unfold classify, is_dduf_file, isfile, isdir.
    destruct (fs model_path) as [[]|]; rewrite ?andb_false_r, ?andb_true_r;
      reflexivity.
  - now apply load_model_first_call.
Qed.

End Routes.

(** ** Packaged archives *)

Section Archive.
Context {Engine Image : Type} (X : externals Engine Image).

(** C3: a fresh load of a packaged archive splits the path into directory
    and file name and calls the generic constructor once with them; no
    strategy of the fallback ladder is ever tried; whatever the constructor
    or the move to the device raises ends the load with a [RuntimeError]
    whose [__context__] is that exception, the globals left as they were. *)
Theorem load_model_dduf_fatal (model_path : string) (w : world Engine) :
  is_dduf_file (os_path X) model_path = true ->
  already_loaded w model_path = None ->
  let dev := fst (select_device X) in
  let dt := snd (select_device X) in
  let dduf_dir := dirname model_path in
  let dduf_filename := basename model_path in
  let built := DiffusionPipeline_from_pretrained dduf_dir (Some dduf_filename) dt in
  let r := load_model X model_path w in
  (exists rest, trace (snd r) = (trace w ++ built :: rest)%list /\ constructions rest = []) /\
  (forall e, fst r = Raise e ->
     exists orig,
       (diffusion_from_pretrained X (trace w) dduf_dir (Some dduf_filename) dt = Raise orig \/
        exists p, pipeline_to X (trace w ++ [built])%list p dev = Raise orig) /\
       e = dduf_load_error orig /\ context_of e = Some orig /\
       pipeline (snd r) = pipeline w /\ current_model (snd r) = current_model w) /\
  (forall orig,
     diffusion_from_pretrained X (trace w) dduf_dir (Some dduf_filename) dt = Raise orig ->
     fst r = Raise (dduf_load_error orig) /\
     trace (snd r) = (trace w ++ [built])%list).
Proof.
  intros Hd Hl dev dt dduf_dir dduf_filename built r.
  pose proof (load_model_archive X model_path w Hd Hl) as L. cbv zeta in L.
  fold dev dt dduf_dir dduf_filename built r in L.
  destruct (diffusion_from_pretrained X (trace w) dduf_dir (Some dduf_filename) dt)
    as [p|e0] eqn:E0;
    [destruct (pipeline_to X _ p dev) as [p'|e1] eqn:E1|];
    destruct L as (Hf & Ht & Hp & Hc); (split; [|split]).
  - exists [Pipeline_to dev]. now split.
  - intros e He; rewrite Hf in He; discriminate He.
  - intros orig H; discriminate H.
  - exists [Pipeline_to dev]. now split.
  - intros e He; rewrite Hf in He; injection He as <-.
    exists e1. repeat split; try assumption. right. now exists p.
  - intros orig H; discriminate H.
  - exists []. now split.
  - intros e He; rewrite Hf in He; injection He as <-.
    exists e0. repeat split; try assumption. now left.
  - intros orig H; injection H as <-. now split.
Qed.

End Archive.

(** ** The three construction strategies *)

Section Fallback.
Context {Engine Image : Type} (X : externals Engine Image).

(** C2, amended: outside the packaged-archive case a fresh load tries the
    auto-detecting constructor, then the Stable Diffusion one, then the
    generic one, each only when the one before raised, and stops at the
    first that builds a pipeline; when all three raise the load fails with
    the last exception and leaves the globals alone; a load that fails
    otherwise fails in moving the pipeline to the device or in enabling
    attention slicing. *)
Theorem load_model_fallback_order (model_path : string) (w : world Engine) :
  is_dduf_file (os_path X) model_path = false ->
  already_loaded w model_path = None ->
  let dev := fst (select_device X) in
  let dt := snd (select_device X) in
  let r := load_model X model_path w in
  let c1 := AutoPipeline_from_pretrained model_path dt in
  let c2 := StableDiffusionPipeline_from_pretrained model_path dt in
  let c3 := DiffusionPipeline_from_pretrained model_path None dt in
  let a1 := auto_from_pretrained X (trace w) model_path dt in
  let a2 := sd_from_pretrained X (trace w ++ [c1])%list model_path dt in
  let a3 := diffusion_from_pretrained X (trace w ++ [c1; c2])%list model_path None dt in
  let tried :=
    match a1 with
    | Ok _ => [c1]
    | Raise _ => match a2 with Ok _ => [c1; c2] | Raise _ => [c1; c2; c3] end
    end in
  (exists rest,
      trace (snd r) = (trace w ++ tried ++ rest)%list /\ constructions rest = []) /\
  (forall e1 e2 e3,
      a1 = Raise e1 -> a2 = Raise e2 -> a3 = Raise e3 ->
      fst r = Raise (raised_while_handling e1 (raised_while_handling e2 e3)) /\
      trace (snd r) = (trace w ++ tried)%list /\
      pipeline (snd r) = pipeline w /\ current_model (snd r) = current_model w) /\
  (forall e,
      fst r = Raise e ->
      (exists e1 e2 e3, a1 = Raise e1 /\ a2 = Raise e2 /\ a3 = Raise e3) \/
      (exists p h, pipeline_to X h p dev = Raise e \/
                   enable_attention_slicing X h p = Raise e)).
Proof.
  intros Hd Hl dev dt r c1 c2 c3 a1 a2 a3 tried.
  pose proof (load_model_ladder X model_path w Hd Hl) as L. cbv zeta in L.
  fold dev dt r c1 c2 c3 in L.
  replace ((trace w ++ [c1]) ++ [c2])%list with (trace w ++ [c1; c2])%list in L
    by now rewrite <- app_assoc.
  fold a1 a2 a3 in L. subst tried.
  destruct a1 as [p1|e1] eqn:E1;
    [|destruct a2 as [p2|e2] eqn:E2; [|destruct a3 as [p3|e3] eqn:E3]];
    try (destruct (pipeline_to X _ _ dev) as [p'|e'] eqn:Eto;
         [destruct (has_enable_attention_slicing X p');
          [destruct (enable_attention_slicing X _ p') as [p''|e''] eqn:Een|]|]);
    destruct L as (Hf & Ht & Hp & Hc);
    (split; [|split]);
    try (eexists; split;
         [rewrite Ht, <- ?app_assoc; cbn [app]; reflexivity | reflexivity]);
    try (intros x1 x2 x3 H1 H2 H3; discriminate);
    try (intros e He; rewrite Hf in He; discriminate He);
    try (intros e He; rewrite Hf in He; injection He as <-;
         right; eexists; eexists; first [left; eassumption | right; eassumption]).
  - intros x1 x2 x3 H1 H2 H3.
    injection H1 as <-; injection H2 as <-; injection H3 as <-.
    rewrite Ht, <- ?app_assoc. now repeat split.
  - intros e He. left. now exists e1, e2, e3.
Qed.

End Fallback.

(** C2 as worded fails: the first strategy builds the pipeline, no other
    strategy is tried, and the load still fails, in the move to the device. *)
Lemma load_fails_after_first_strategy_built :
  let X := scripted out_of_memory in
  let r := load_model X "org/model" empty_world in
  auto_from_pretrained X [] "org/model" Float16 = Ok "auto:org/model" /\
  fst r = Raise (new_exn RuntimeError "CUDA out of memory") /\
  trace (snd r) = [AutoPipeline_from_pretrained "org/model" Float16; Pipeline_to Cuda].
Proof. cbv zeta. repeat split; vm_compute; reflexivity. Qed.

(** ** Loading twice *)

Section Idempotence.
Context {Engine Image : Type} (X : externals Engine Image).

Lemma already_loaded_some (w : world Engine) (model_path : string) (p : Engine) :
  already_loaded w model_path = Some p <->
  pipeline w = Some p /\ current_model w = Some model_path.
Proof.
  unfold already_loaded. destruct (pipeline w) as [q|], (current_model w) as [m|];
    try (split; [discriminate | intros [? ?]; discriminate]).
  destruct (String.eqb_spec m model_path) as [->|Hne].
  - split; [intros [= ->]; now split | intros [[= ->] _]; reflexivity].
  - split; [discriminate | intros [_ [= ?]]; contradiction].
Qed.

Lemma already_loaded_other (w : world Engine) (model_path : string) :
  current_model w <> Some model_path -> already_loaded w model_path = None.
Proof.
  intros H. destruct (already_loaded w model_path) as [p|] eqn:E; [|reflexivity].
  apply already_loaded_some in E as [_ E]. contradiction.
Qed.

(** A fresh load that returns has put its engine and its path in the
    globals. *)
Lemma load_model_installs (model_path : string) (w : world Engine) (p : Engine) :
  already_loaded w model_path = None ->
  fst (load_model X model_path w) = Ok p ->
  pipeline (snd (load_model X model_path w)) = Some p /\
  current_model (snd (load_model X model_path w)) = Some model_path.
Proof.
  intros Hl Hr. destruct (is_dduf_file (os_path X) model_path) eqn:Hd.
  - pose proof (load_model_archive X model_path w Hd Hl) as L. cbv zeta in L.
    destruct (diffusion_from_pretrained X _ _ _ _);
      [destruct (pipeline_to X _ _ _)|];
      destruct L as (Hf & _ & Hp & Hc); rewrite Hf in Hr;
      try discriminate Hr; injection Hr as <-; now split.
  - pose proof (load_model_ladder X model_path w Hd Hl) as L. cbv zeta in L.
    destruct (auto_from_pretrained X _ model_path _);
      [|destruct (sd_from_pretrained X _ model_path _);
        [|destruct (diffusion_from_pretrained X _ model_path None _)]];
      try (destruct (pipeline_to X _ _ _);
           [destruct (has_enable_attention_slicing X _);
            [destruct (enable_attention_slicing X _ _)|]|]);
      destruct L as (Hf & _ & Hp & Hc); rewrite Hf in Hr;
      try discriminate Hr; injection Hr as <-; now split.
Qed.

(** A fresh load that returns returns the engine its own calls built:
    the one a constructor of this load returned, moved to the device and,
    where the engine has the switch, with attention slicing on.  The
    engine that was resident before plays no part in it. *)
Lemma load_model_builds (model_path : string) (w : world Engine) (p : Engine) :
  already_loaded w model_path = None ->
  fst (load_model X model_path w) = Ok p ->
  exists new,
    trace (snd (load_model X model_path w)) = (trace w ++ new)%list /\
    engine_built X (trace w) new None = Some p.
Proof.
  intros Hl Hr. destruct (is_dduf_file (os_path X) model_path) eqn:Hd.
  - pose proof (load_model_archive X model_path w Hd Hl) as L. cbv zeta in L.
    destruct (diffusion_from_pretrained X _ _ _ _) as [q|e] eqn:E1;
      [destruct (pipeline_to X _ _ _) as [q'|e] eqn:E2|];
      destruct L as (Hf & Ht & _); rewrite Hf in Hr;
      try discriminate Hr; injection Hr as <-.
    eexists. split; [exact Ht|].
    cbn [engine_built engine_after]. now rewrite E1, E2.
  - pose proof (load_model_ladder X model_path w Hd Hl) as L. cbv zeta in L.
    destruct (auto_from_pretrained X _ model_path _) as [q|e1] eqn:E1;
      [|destruct (sd_from_pretrained X _ model_path _) as [q|e2] eqn:E2;
        [|destruct (diffusion_from_pretrained X _ model_path None _) as [q|e3] eqn:E3]];
      try (destruct (pipeline_to X _ _ _) as [q'|e] eqn:Et;
           [destruct (has_enable_attention_slicing X _) eqn:Eh;
            [destruct (enable_attention_slicing X _ _) as [q''|e] eqn:Ee|]|]);
      destruct L as (Hf & Ht & _); rewrite Hf in Hr;
      try discriminate Hr; injection Hr as <-;
      eexists; (split; [rewrite Ht, <- ?app_assoc; reflexivity|]);
      cbn [engine_built engine_after Datatypes.app];
      rewrite ?E1; cbv beta iota; rewrite ?E2; cbv beta iota;
      rewrite ?E3; cbv beta iota; rewrite ?Et; cbv beta iota;
      rewrite ?Ee; reflexivity.
Qed.

(** C8: a load of the path whose engine is resident returns that engine
    and calls no constructor, the globals staying as they are; a load of
    any other path starts with a construction, and when it returns, the
    one engine slot holds, under the new path, the engine the
    constructions of this load built, whatever engine was there before. *)
Theorem load_model_idempotent (model_path : string) (w : world Engine) :
  let r := load_model X model_path w in
  (forall p,
      pipeline w = Some p -> current_model w = Some model_path ->
      fst r = Ok p /\ trace (snd r) = trace w /\
      pipeline (snd r) = Some p /\ current_model (snd r) = Some model_path) /\
  (current_model w <> Some model_path ->
      (exists first rest,
          trace (snd r) = (trace w ++ first :: rest)%list /\
          is_construction first = true) /\
      (forall p',
          fst r = Ok p' ->
          pipeline (snd r) = Some p' /\ current_model (snd r) = Some model_path /\
          exists new,
            trace (snd r) = (trace w ++ new)%list /\
            engine_built X (trace w) new None = Some p')).
Proof.
  intros r; split.
  - intros p Hp Hc.
    destruct (load_model_resident X model_path w p) as (Hf & Ht & Hp' & Hc').
    { now apply already_loaded_some. }
    fold r in Hf, Ht, Hp', Hc'. rewrite Hp', Hc'. now repeat split.
  - intros Hne. apply already_loaded_other in Hne. split.
    + destruct (load_model_first_call X model_path w Hne) as (rest & Ht).
      eexists; exists rest. split; [exact Ht|].
      now destruct (classify (os_path X) model_path).
    + intros p' Hr. destruct (load_model_installs model_path w p' Hne Hr) as [Hp Hc].
      split; [exact Hp|]. split; [exact Hc|].
      now apply load_model_builds.
Qed.

End Idempotence.

(** ** A load that fails half way *)

(** C10 on the code: the constructor builds the pipeline, the move to the
    accelerator raises, and the load fails with the new pipeline already
    stored in the global, so that a generation that follows finds an engine
    and runs; the packaged-archive path, which builds in a local variable,
    leaves the global empty on the same failure. *)
Theorem failed_load_leaves_engine_resident :
  let X := scripted out_of_memory in
  let r := load_model X "org/model" empty_world in
  let r' := load_model X "/models/sd.dduf" empty_world in
  fst r = Raise (new_exn RuntimeError "CUDA out of memory") /\
  pipeline empty_world = None /\
  pipeline (snd r) = Some "auto:org/model" /\
  current_model (snd r) = None /\
  (exists images,
      fst (generate_images X "a cat" 1 512 512 None 50 default_guidance_scale None (snd r))
      = Ok images) /\
  (exists e, fst r' = Raise e) /\ pipeline (snd r') = None.
Proof.
  cbv zeta. repeat split; try (eexists; vm_compute; reflexivity).
Qed.

(** ** Generation *)

Lemma call_generators_app (a b : history) :
  call_generators (a ++ b)%list = (call_generators a ++ call_generators b)%list.
Proof.
  induction a as [|ev a IH]; [reflexivity|].
  destruct ev; simpl; rewrite ?IH; reflexivity.
Qed.

Section Generation.
Context {Engine Image : Type} (X : externals Engine Image).
Variables (p : Engine) (prompt : string) (width height : Z)
          (negative_prompt : option string) (num_inference_steps : Z)
          (guidance_scale : float) (seed : option Z) (gen : option generator).


Lemma generate_loop_shape (indices : list Z) :
  forall (images : list bytes) (w : world Engine),
  let r := generate_loop X p prompt width height negative_prompt
             num_inference_steps guidance_scale seed gen indices images w in
  exists (new : history) (k : nat),
    trace (snd r) = (trace w ++ new)%list /\
    (k <= List.length indices)%nat /\
    call_generators new = map (loop_generator (generator_device X) seed gen) (firstn k indices) /\
    pipeline (snd r) = pipeline w /\ current_model (snd r) = current_model w /\
    forall out, fst r = Ok out ->
                k = List.length indices /\
                exists fresh, out = (images ++ fresh)%list /\
                              List.length fresh = List.length indices.
Proof.
  induction indices as [|i rest IH]; intros images w r; subst r.
  - exists [], 0%nat. cbn. rewrite app_nil_r.
    do 5 (split; [reflexivity || lia|]).
    intros out [= <-]. split; [reflexivity|].
    exists []. now rewrite app_nil_r.
  - cbn [generate_loop]. unfold seeded_generator. unfold_monad.
    assert (Stop : forall (tr new : history) (pl : option Engine) (cm : option string)
                          (k : nat) (e : exn),
               tr = (trace w ++ new)%list ->
               (k <= 1)%nat ->
               call_generators new = map (loop_generator (generator_device X) seed gen) (firstn k [i]) ->
               pl = pipeline w -> cm = current_model w ->
               exists (new : history) (k : nat),
                 tr = (trace w ++ new)%list /\
                 (k <= List.length (i :: rest))%nat /\
                 call_generators new = map (loop_generator (generator_device X) seed gen) (firstn k (i :: rest)) /\
                 pl = pipeline w /\ cm = current_model w /\
                 forall out, @Raise (list bytes) e = Ok out ->
                   k = List.length (i :: rest) /\
                   exists fresh, out = (images ++ fresh)%list /\
                                 List.length fresh = List.length (i :: rest)).
    { intros tr new pl cm k e Ht Hk Hg Hp Hc. exists new, k.
      repeat split; try assumption; try discriminate.
      - cbn [List.length]. lia.
      - rewrite Hg. destruct k as [|[|k]]; [reflexivity|reflexivity|lia]. }
    assert (Step : forall (w1 : world Engine) (evs : history) (png : bytes),
               trace w1 = (trace w ++ evs)%list ->
               call_generators evs = [(loop_generator (generator_device X) seed gen) i] ->
               pipeline w1 = pipeline w -> current_model w1 = current_model w ->
               let r := generate_loop X p prompt width height negative_prompt
                          num_inference_steps guidance_scale seed gen rest
                          (images ++ [png])%list w1 in
               exists (new : history) (k : nat),
                 trace (snd r) = (trace w ++ new)%list /\
                 (k <= List.length (i :: rest))%nat /\
                 call_generators new = map (loop_generator (generator_device X) seed gen) (firstn k (i :: rest)) /\
                 pipeline (snd r) = pipeline w /\
                 current_model (snd r) = current_model w /\
                 forall out, fst r = Ok out ->
                   k = List.length (i :: rest) /\
                   exists fresh, out = (images ++ fresh)%list /\
                                 List.length fresh = List.length (i :: rest)).
    { intros w1 evs png Ht Hg Hp Hc r.
      destruct (IH (images ++ [png])%list w1) as (new' & k' & Ht' & Hk' & Hg' & Hp' & Hc' & Ho').
      fold r in Ht', Hp', Hc', Ho'.
      exists (evs ++ new')%list, (S k'). repeat split.
      - now rewrite Ht', Ht, app_assoc.
      - cbn [List.length]. lia.
      - rewrite call_generators_app, Hg, Hg'. reflexivity.
      - congruence.
      - congruence.
      - destruct (Ho' out H) as [-> _]. reflexivity.
      - destruct (Ho' out H) as (_ & fresh & -> & Hlen).
        exists (png :: fresh). rewrite <- app_assoc. split; [reflexivity|].
        cbn [List.length]. now rewrite Hlen. }
    unfold loop_generator in *.
    destruct gen as [g|], seed as [s|]; cbn -[append generate_loop];
      try (destruct (manual_seed X (trace w) (generator_device X) (s + i)) as [[]|e0];
           cbn -[append generate_loop];
           [|eapply Stop with (k := 0%nat);
             [cbn [trace]; reflexivity | lia | reflexivity ..]]);
      (match goal with
       | |- context [pipeline_call X ?h p ?a] =>
           destruct (pipeline_call X h p a) as [[|im ims]|e1]
       end; cbn -[append generate_loop];
       [ eapply Stop with (k := 1%nat);
         [cbn [trace]; rewrite <- ?app_assoc; reflexivity | lia | reflexivity ..]
       | match goal with
         | |- context [save_png X ?h ?x] => destruct (save_png X h x) as [png|e2]
         end; cbn -[append generate_loop];
         [ eapply Step;
           [cbn [trace]; rewrite <- ?app_assoc; reflexivity | reflexivity ..]
         | eapply Stop with (k := 1%nat);
           [cbn [trace]; rewrite <- ?app_assoc; reflexivity | lia | reflexivity ..] ]
       | eapply Stop with (k := 1%nat);
         [cbn [trace]; rewrite <- ?app_assoc; reflexivity | lia | reflexivity ..] ]).
Qed.

(** A loop that returns returns, after the buffers it started with, the
    encodings of the first images of its engine calls, in the order of
    the calls. *)
Lemma generate_loop_buffers (indices : list Z) :
  forall (images : list bytes) (w : world Engine) (out : list bytes),
  let r := generate_loop X p prompt width height negative_prompt
             num_inference_steps guidance_scale seed gen indices images w in
  fst r = Ok out ->
  exists new : history,
    trace (snd r) = (trace w ++ new)%list /\
    out = (images ++ call_buffers X p (trace w) new)%list.
Proof.
  induction indices as [|i rest IH]; intros images w out r; subst r.
  - cbn. intros [= <-]. exists []. cbn. now rewrite !app_nil_r.
  - cbn [generate_loop]. unfold seeded_generator. unfold_monad.
    assert (Step : forall (w1 : world Engine) (evs : history) (png : bytes),
               trace w1 = (trace w ++ evs)%list ->
               (forall tail, call_buffers X p (trace w) (evs ++ tail)%list
                             = png :: call_buffers X p (trace w ++ evs)%list tail) ->
               let r := generate_loop X p prompt width height negative_prompt
                          num_inference_steps guidance_scale seed gen rest
                          (images ++ [png])%list w1 in
               fst r = Ok out ->
               exists new : history,
                 trace (snd r) = (trace w ++ new)%list /\
                 out = (images ++ call_buffers X p (trace w) new)%list).
    { intros w1 evs png Ht Hb r Hr.
      destruct (IH (images ++ [png])%list w1 out Hr) as (new' & Ht' & ->).
      fold r in Ht'. exists (evs ++ new')%list. split.
      - now rewrite Ht', Ht, app_assoc.
      - rewrite Hb, <- app_assoc, Ht. reflexivity. }
    destruct gen as [g|], seed as [s|]; cbn -[append generate_loop];
      try (destruct (manual_seed X (trace w) (generator_device X) (s + i)) as [[]|e0];
           cbn -[append generate_loop]; [|discriminate]);
      (match goal with
       | |- context [pipeline_call X ?h p ?a] =>
           destruct (pipeline_call X h p a) as [[|im ims]|e1] eqn:Ec
       end; cbn -[append generate_loop]; try discriminate;
       match goal with
       | |- context [save_png X ?h ?x] => destruct (save_png X h x) as [png|e2] eqn:Es
       end; cbn -[append generate_loop]; try discriminate;
       eapply Step;
       [ cbn [trace]; rewrite <- ?app_assoc; reflexivity
       | intros tail; cbn [call_buffers Datatypes.app];
         rewrite ?Ec; cbv beta iota zeta; rewrite ?Es;
         rewrite <- ?app_assoc; reflexivity ]).
Qed.

(** With a deterministic backend the seeded loop is a traversal of its
    indices, whatever the world. *)
Lemma generate_loop_seeded (s : Z) (g : generator) :
  deterministic_backend X ->
  seed = Some s -> gen = Some g ->
  forall (indices : list Z) (images : list bytes) (w : world Engine),
    fst (generate_loop X p prompt width height negative_prompt
           num_inference_steps guidance_scale seed gen indices images w)
    = rbind (traverse (fun i => seeded_image X p (request_args prompt width height negative_prompt num_inference_steps guidance_scale) (s + i)) indices)
            (fun fresh => Ok (images ++ fresh)%list).
Proof.
  intros (Hm & Hp & Hs) -> ->.
  induction indices as [|i rest IH]; intros images w.
  - cbn. now rewrite app_nil_r.
  - cbn [generate_loop traverse]. unfold seeded_generator, seeded_image. unfold_monad.
    cbn [gen_device gen_seed].
    rewrite (Hm (trace w) []).
    destruct (manual_seed X [] (generator_device X) (s + i)) as [[]|e0];
      cbn -[append generate_loop traverse]; [|reflexivity].
    match goal with
    | |- context [pipeline_call X ?h p ?a] =>
        rewrite (Hp h [] p a) by discriminate;
        change a with
          (with_generator (request_args prompt width height negative_prompt num_inference_steps guidance_scale)
             (Some {| gen_device := generator_device X; gen_seed := s + i |}))
    end.
    destruct (pipeline_call X [] p _) as [[|im ims]|e1];
      cbn -[append generate_loop traverse]; try reflexivity.
    match goal with
    | |- context [save_png X ?h im] => rewrite (Hs h [] im)
    end.
    destruct (save_png X [] im) as [png|e2];
      cbn -[append generate_loop traverse]; [|reflexivity].
    rewrite IH.
    destruct (traverse _ rest) as [fresh|e3]; cbn; [|reflexivity].
    now rewrite <- app_assoc.
Qed.


(** [generate_images] with an engine resident: the generator of the seed
    is made first, then the loop runs over [range n]. *)
Lemma generate_images_run (n : Z) (w : world Engine) :
  pipeline w = Some p ->
  let r := generate_images X prompt n width height negative_prompt
             num_inference_steps guidance_scale seed w in
  let loop g w1 :=
    generate_loop X p prompt width height negative_prompt num_inference_steps
      guidance_scale seed g (range n) [] w1 in
  match seed with
  | Some s =>
      let made := Generator_manual_seed (generator_device X) s in
      match manual_seed X (trace w) (generator_device X) s with
      | Raise e =>
          fst r = Raise e /\ trace (snd r) = (trace w ++ [made])%list /\
          pipeline (snd r) = pipeline w /\ current_model (snd r) = current_model w
      | Ok _ =>
          exists w1,
            trace w1 = (trace w ++ [made])%list /\
            pipeline w1 = pipeline w /\ current_model w1 = current_model w /\
            same_outcome r (loop (Some {| gen_device := generator_device X; gen_seed := s |}) w1)
      end
  | None =>
      exists w1,
        trace w1 = trace w /\
        pipeline w1 = pipeline w /\ current_model w1 = current_model w /\
        same_outcome r (loop None w1)
  end.
Proof.
  intros Hp r loop. subst loop. unfold same_outcome.
  assert (Er : r = generate_images X prompt n width height negative_prompt
                     num_inference_steps guidance_scale seed w) by reflexivity.
  clearbody r.
  cbv [generate_images seeded_generator bind get log call ret raise] in Er.
  rewrite Hp in Er. cbv beta iota in Er.
  destruct seed as [s|]; cbv beta iota zeta in Er |- *.
  - destruct (manual_seed X (trace w) (generator_device X) s) as [[]|e];
      cbv beta iota in Er; cbn [trace pipeline current_model] in Er.
    + match type of Er with
      | context [generate_loop _ _ _ _ _ _ _ _ _ _ _ _ ?w1] =>
          exists w1; destruct (generate_loop X p prompt width height negative_prompt
                                 num_inference_steps guidance_scale (Some s)
                                 (Some {| gen_device := generator_device X;
                                          gen_seed := s |}) (range n) [] w1)
            as [[out|e] w2]
      end; subst r; now repeat split.
    + subst r. now repeat split.
  - match type of Er with
    | context [generate_loop _ _ _ _ _ _ _ _ _ _ _ _ ?w1] =>
        exists w1; destruct (generate_loop X p prompt width height negative_prompt
                               num_inference_steps guidance_scale None None
                               (range n) [] w1)
          as [[out|e] w2]
    end; subst r; now repeat split.
Qed.

End Generation.

Lemma range_length (n : Z) : List.length (range n) = Z.to_nat n.
Proof. unfold range. now rewrite length_map, length_seq. Qed.

Lemma firstn_seq_le (k start len : nat) :
  (k <= len)%nat -> firstn k (seq start len) = seq start k.
Proof.
  revert start len; induction k as [|k IH]; intros start [|len] H; cbn;
    try reflexivity; try lia.
  f_equal. apply IH. lia.
Qed.

Lemma firstn_range (k : nat) (n : Z) :
  (k <= Z.to_nat n)%nat -> firstn k (range n) = range (Z.of_nat k).
Proof.
  intros H. unfold range. now rewrite firstn_map, firstn_seq_le, Nat2Z.id.
Qed.

Lemma nth_range (i n : Z) :
  0 <= i < n -> nth (Z.to_nat i) (range n) 0 = i.
Proof.
  intros H. unfold range.
  rewrite (nth_indep _ 0 (Z.of_nat 0)) by (rewrite length_map, length_seq; lia).
  rewrite map_nth, seq_nth by lia. lia.
Qed.

Lemma rbind_ok {A} (r : result A) : rbind r Ok = r.
Proof. now destruct r. Qed.

Lemma traverse_nth {A B} (f : A -> result B) (xs : list A) (ys : list B) :
  traverse f xs = Ok ys ->
  List.length ys = List.length xs /\
  forall j d d', (j < List.length xs)%nat -> f (nth j xs d) = Ok (nth j ys d').
Proof.
  revert ys; induction xs as [|x xs IH]; intros ys; cbn [traverse].
  - intros [= <-]. split; [reflexivity|]. intros j d d' H; cbn in H; lia.
  - destruct (f x) as [y|e] eqn:Ex; cbn [rbind]; [|discriminate].
    destruct (traverse f xs) as [zs|e]; cbn [rbind]; [|discriminate].
    intros [= <-]. destruct (IH zs eq_refl) as [Hl Hn].
    split; [cbn [List.length]; now rewrite Hl|].
    intros [|j] d d' H; cbn [nth]; [exact Ex|].
    apply Hn. cbn [List.length] in H. lia.
Qed.

Section GenerationClaims.
Context {Engine Image : Type} (X : externals Engine Image).
Variables (prompt : string) (width height : Z)
          (negative_prompt : option string) (num_inference_steps : Z)
          (guidance_scale : float).

(** What any run of [generate_images] on a resident engine leaves behind:
    engine calls for the first [k] indices, each with the generator of
    its index, and all [n] of them when it returns. *)
Lemma generate_images_shape (p : Engine) (n : Z) (seed : option Z) (w : world Engine) :
  pipeline w = Some p ->
  let r := generate_images X prompt n width height negative_prompt
             num_inference_steps guidance_scale seed w in
  let gen := option_map (fun s => {| gen_device := generator_device X; gen_seed := s |})
               seed in
  exists (new : history) (k : nat),
    trace (snd r) = (trace w ++ new)%list /\
    (k <= Z.to_nat n)%nat /\
    call_generators new
    = map (loop_generator (generator_device X) seed gen) (firstn k (range n)) /\
    forall out, fst r = Ok out -> k = Z.to_nat n /\ List.length out = Z.to_nat n.
Proof.
  intros Hp r gen.
  pose proof (generate_images_run X p prompt width height negative_prompt
                num_inference_steps guidance_scale seed n w Hp) as R.
  cbv zeta in R. fold r in R.
  assert (Loop : forall g w1 pre,
             trace w1 = (trace w ++ pre)%list -> call_generators pre = [] ->
             g = gen ->
             same_outcome r (generate_loop X p prompt width height negative_prompt
                               num_inference_steps guidance_scale seed g (range n) [] w1) ->
             exists (new : history) (k : nat),
               trace (snd r) = (trace w ++ new)%list /\
               (k <= Z.to_nat n)%nat /\
               call_generators new
               = map (loop_generator (generator_device X) seed gen)
                     (firstn k (range n)) /\
               forall out, fst r = Ok out ->
                           k = Z.to_nat n /\ List.length out = Z.to_nat n).
  { intros g w1 pre Ht Hpre -> (Hf & Htr & _ & _).
    destruct (generate_loop_shape X p prompt width height negative_prompt
                num_inference_steps guidance_scale seed gen (range n) [] w1)
      as (new & k & Ht' & Hk & Hg & _ & _ & Ho).
    rewrite range_length in Hk.
    exists (pre ++ new)%list, k. repeat split.
    - now rewrite Htr, Ht', Ht, app_assoc.
    - exact Hk.
    - now rewrite call_generators_app, Hpre, Hg.
    - rewrite Hf in H. destruct (Ho out H) as [-> _]. apply range_length.
    - rewrite Hf in H. destruct (Ho out H) as (_ & fresh & -> & Hl).
      rewrite List.length_app, Hl, range_length. reflexivity. }
  subst gen. destruct seed as [s|]; cbn [option_map] in *.
  - destruct (manual_seed X (trace w) (generator_device X) s) as [[]|e].
    + destruct R as (w1 & Ht & _ & _ & L).
      eapply Loop; [exact Ht|reflexivity|reflexivity|exact L].
    + destruct R as (Hf & Ht & _).
      exists [Generator_manual_seed (generator_device X) s], 0%nat.
      repeat split; try assumption; try lia; rewrite Hf in H; discriminate H.
  - destruct R as (w1 & Ht & _ & _ & L).
    eapply (Loop None w1 []); [now rewrite app_nil_r|reflexivity|reflexivity|exact L].
Qed.

(** What [generate_images] returns is read off its calls: the encoding of
    the first image of each engine call, in the order of the calls. *)
Lemma generate_images_buffers (p : Engine) (n : Z) (seed : option Z) (w : world Engine)
    (out : list bytes) :
  pipeline w = Some p ->
  let r := generate_images X prompt n width height negative_prompt
             num_inference_steps guidance_scale seed w in
  fst r = Ok out ->
  exists new : history,
    trace (snd r) = (trace w ++ new)%list /\
    out = call_buffers X p (trace w) new.
Proof.
  intros Hp r Hr.
  pose proof (generate_images_run X p prompt width height negative_prompt
                num_inference_steps guidance_scale seed n w Hp) as R.
  cbv zeta in R. fold r in R.
  destruct seed as [s|].
  - destruct (manual_seed X (trace w) (generator_device X) s) as [[]|e].
    + destruct R as (w1 & Ht & _ & _ & Hf & Htr & _).
      rewrite Hf in Hr.
      destruct (generate_loop_buffers X p prompt width height negative_prompt
                  num_inference_steps guidance_scale (Some s) _ (range n) [] w1 out Hr)
        as (new & Ht' & ->).
      exists (Generator_manual_seed (generator_device X) s :: new). split.
      * rewrite Htr, Ht', Ht, <- app_assoc. reflexivity.
      * cbn [call_buffers Datatypes.app]. now rewrite Ht.
    + destruct R as (Hf & _). rewrite Hf in Hr. discriminate Hr.
  - destruct R as (w1 & Ht & _ & _ & Hf & Htr & _).
    rewrite Hf in Hr.
    destruct (generate_loop_buffers X p prompt width height negative_prompt
                num_inference_steps guidance_scale None None (range n) [] w1 out Hr)
      as (new & Ht' & ->).
    exists new. split.
    + now rewrite Htr, Ht', Ht.
    + cbn [Datatypes.app]. now rewrite Ht.
Qed.

(** C7: with no engine resident [generate_images] raises at once and the
    world is as it was; with an engine resident and a count [n] it raises,
    or returns exactly [n] buffers after exactly [n] engine calls, made for
    the indices 0 to [n - 1] in that order, the buffer at each index being
    the PNG encoding of the first image of the call of that index. *)
Theorem generate_images_all_or_nothing (n : Z) (seed : option Z) (w : world Engine) :
  0 <= n ->
  let r := generate_images X prompt n width height negative_prompt
             num_inference_steps guidance_scale seed w in
  let gen := option_map (fun s => {| gen_device := generator_device X; gen_seed := s |})
               seed in
  (pipeline w = None ->
     r = (Raise (new_exn RuntimeError "No model loaded"), w)) /\
  (forall p, pipeline w = Some p ->
     (exists e, fst r = Raise e) \/
     (exists images new,
         fst r = Ok images /\ Z.of_nat (List.length images) = n /\
         trace (snd r) = (trace w ++ new)%list /\
         List.length (call_generators new) = List.length images /\
         call_generators new
         = map (loop_generator (generator_device X) seed gen) (range n) /\
         images = call_buffers X p (trace w) new)).
Proof.
  intros Hn r gen. split.
  - intros Hp. subst r. cbv [generate_images bind get raise]. now rewrite Hp.
  - intros p Ep.
    destruct (generate_images_shape p n seed w Ep) as (new & k & Ht & Hk & Hg & Ho).
    fold r in Ht, Ho. fold gen in Hg.
    destruct (fst r) as [images|e] eqn:Ef; [right|left; now exists e].
    destruct (Ho images eq_refl) as [-> Hl].
    destruct (generate_images_buffers p n seed w images Ep Ef) as (new' & Ht' & Hb).
    fold r in Ht'. rewrite Ht in Ht'. apply app_inv_head in Ht'. subst new'.
    rewrite <- range_length, firstn_all in Hg.
    exists images, new. repeat split; try assumption.
    + rewrite Hl. lia.
    + rewrite Hg, length_map, range_length, Hl. lia.
Qed.


(** With a deterministic backend the answer of a seeded request is a
    function of the engine, the arguments, the count and the seed. *)
Lemma generate_images_seeded_closed (p : Engine) (n S : Z) (w : world Engine) :
  deterministic_backend X ->
  pipeline w = Some p ->
  fst (generate_images X prompt n width height negative_prompt
         num_inference_steps guidance_scale (Some S) w)
  = rbind (manual_seed X [] (generator_device X) S) (fun _ =>
      traverse
        (fun i => seeded_image X p
                    (request_args prompt width height negative_prompt
                       num_inference_steps guidance_scale) (S + i))
        (range n)).
Proof.
  intros D Hp.
  pose proof (generate_images_run X p prompt width height negative_prompt
                num_inference_steps guidance_scale (Some S) n w Hp) as R.
  cbv beta iota zeta in R. destruct D as (Hm & Hc & Hs).
  rewrite (Hm (trace w) []) in R.
  destruct (manual_seed X [] (generator_device X) S) as [[]|e]; cbn [rbind].
  - destruct R as (w1 & _ & _ & _ & Hf & _). rewrite Hf.
    rewrite (generate_loop_seeded X p prompt width height negative_prompt
               num_inference_steps guidance_scale (Some S) _ S _
               (conj Hm (conj Hc Hs)) eq_refl eq_refl).
    cbn [app]. apply rbind_ok.
  - now destruct R as (Hf & _).
Qed.

Lemma seeded_image_seeds (p : Engine) (a : call_args) (s : Z) (b : bytes) :
  seeded_image X p a s = Ok b -> manual_seed X [] (generator_device X) s = Ok tt.
Proof.
  unfold seeded_image. cbn [gen_device].
  destruct (manual_seed X [] (generator_device X) s) as [[]|e]; [reflexivity|].
  discriminate.
Qed.

(** C1: a request with seed [S] and count [n] calls the engine in index
    order with generators seeded [S], [S + 1], ... on the device of the
    engine, one per index reached and all [n] of them when it returns; and
    with a deterministic backend the answer is the same in every world,
    its image at index [i] being the one a request for a single image with
    seed [S + i] returns. *)
Theorem generate_images_seeded (p : Engine) (n S : Z) (w : world Engine) :
  pipeline w = Some p ->
  1 <= n ->
  let r := generate_images X prompt n width height negative_prompt
             num_inference_steps guidance_scale (Some S) w in
  (exists (new : history) (k : Z),
      0 <= k <= n /\
      trace (snd r) = (trace w ++ new)%list /\
      call_generators new
      = map (fun i => Some {| gen_device := generator_device X; gen_seed := S + i |})
            (range k) /\
      forall images, fst r = Ok images ->
                     k = n /\ Z.of_nat (List.length images) = n) /\
  (deterministic_backend X ->
     (forall w', pipeline w' = Some p ->
                 fst (generate_images X prompt n width height negative_prompt
                        num_inference_steps guidance_scale (Some S) w') = fst r) /\
     (forall images, fst r = Ok images ->
        forall i w', 0 <= i < n -> pipeline w' = Some p ->
          fst (generate_images X prompt 1 width height negative_prompt
                 num_inference_steps guidance_scale (Some (S + i)) w')
          = Ok [nth (Z.to_nat i) images []])).
Proof.
  intros Hp Hn r. split.
  - destruct (generate_images_shape p n (Some S) w Hp) as (new & k & Ht & Hk & Hg & Ho).
    fold r in Ht, Ho. exists new, (Z.of_nat k). repeat split; try lia.
    + exact Ht.
    + rewrite Hg, firstn_range by exact Hk. reflexivity.
    + destruct (Ho images H) as [-> _]. lia.
    + destruct (Ho images H) as [_ ->]. lia.
  - intros D. split.
    + intros w' Hp'. subst r.
      now rewrite !generate_images_seeded_closed with (p := p).
    + intros images Hr i w' Hi Hp'. subst r.
      rewrite generate_images_seeded_closed with (p := p) in Hr by assumption.
      rewrite generate_images_seeded_closed with (p := p) by assumption.
      destruct (manual_seed X [] (generator_device X) S) as [[]|e];
        cbn [rbind] in Hr; [|discriminate Hr].
      apply traverse_nth in Hr as [Hl Hnth].
      specialize (Hnth (Z.to_nat i) 0 []).
      rewrite range_length, nth_range in Hnth by lia.
      specialize (Hnth ltac:(lia)).
      rewrite (seeded_image_seeds _ _ _ _ Hnth). cbn [rbind].
      change (range 1) with [0]. cbn [traverse rbind].
      rewrite Z.add_0_r, Hnth. reflexivity.
Qed.

End GenerationClaims.

(** ** The request gate *)

Lemma differs_true (s : string) (o : option string) :
  differs s o = true <-> Some s <> o.
Proof.
  unfold differs. destruct o as [t|]; [|split; [discriminate|reflexivity]].
  rewrite negb_true_iff. destruct (String.eqb_spec s t) as [->|Hne].
  - split; [discriminate|]. intros H; now contradiction H.
  - split; [|reflexivity]. intros _ [= ?]. contradiction.
Qed.

Lemma differs_false (s : string) (o : option string) :
  differs s o = false <-> Some s = o.
Proof.
  unfold differs. destruct o as [t|]; [|split; discriminate].
  rewrite negb_false_iff, String.eqb_eq. split; [now intros ->|now intros [= ->]].
Qed.

Section Gate.
Context {Engine Image : Type} (X : externals Engine Image).

Lemma format_response_b64 (images : list bytes) :
  forall (acc : list ImageData) (w : world Engine),
    format_response X B64_json images acc w
    = (Ok (acc ++ map (fun b => {| b64_json := Some (b64encode X b);
                                   url := None; revised_prompt := None |}) images)%list,
       w).
Proof.
  induction images as [|b rest IH]; intros acc w; cbn [format_response map].
  - unfold ret. now rewrite app_nil_r.
  - rewrite IH, <- app_assoc. reflexivity.
Qed.

Lemma generate_loop_returns (p : Engine) (prompt : string) (width height : Z)
    (negative_prompt : option string) (num_inference_steps : Z)
    (guidance_scale : float) (seed : option Z) (gen : option generator) :
  backend_never_raises X ->
  forall (indices : list Z) (images : list bytes) (w : world Engine),
  exists out, fst (generate_loop X p prompt width height negative_prompt
                     num_inference_steps guidance_scale seed gen indices images w)
              = Ok out.
Proof.
  intros (Hm & Hc & Hs). induction indices as [|i rest IH]; intros images w.
  - now exists images.
  - cbn [generate_loop]. cbv [seeded_generator bind call ret raise].
    destruct gen as [g|], seed as [s|]; cbv beta iota; rewrite ?Hm; cbv beta iota;
      cbn [trace];
      match goal with
      | |- context [pipeline_call X ?h p ?a] =>
          destruct (Hc h p a) as (im & ims & ->)
      end; cbv beta iota; cbn [trace];
      match goal with
      | |- context [save_png X ?h ?x] => destruct (Hs h x) as (b & ->)
      end; cbv beta iota; apply IH.
Qed.

Lemma generate_images_returns (p : Engine) (prompt : string) (n width height : Z)
    (negative_prompt : option string) (num_inference_steps : Z)
    (guidance_scale : float) (seed : option Z) (w : world Engine) :
  backend_never_raises X ->
  pipeline w = Some p ->
  exists out, fst (generate_images X prompt n width height negative_prompt
                     num_inference_steps guidance_scale seed w) = Ok out.
Proof.
  intros B Hp.
  pose proof (generate_images_run X p prompt width height negative_prompt
                num_inference_steps guidance_scale seed n w Hp) as R.
  cbv zeta in R. destruct seed as [s|].
  - rewrite (proj1 B) in R. destruct R as (w1 & _ & _ & _ & Hf & _).
    rewrite Hf. now apply generate_loop_returns.
  - destruct R as (w1 & _ & _ & _ & Hf & _).
    rewrite Hf. now apply generate_loop_returns.
Qed.

(** Whatever the handler of [create_image] is given, it raises the status
    400 or the status 500. *)
Lemma try_except_outcome {A} (m : M A) (h : exn -> M A) (w : world Engine) :
  (exists a, fst (m w) = Ok a /\ try_except m h w = m w) \/
  (exists e, fst (m w) = Raise e /\
             fst (try_except m h w)
             = match fst (h e (snd (m w))) with
               | Ok a => Ok a
               | Raise e' => Raise (raised_while_handling e e')
               end).
Proof.
  unfold try_except. destruct (m w) as [[a|e] w'].
  - left. now exists a.
  - right. exists e. split; [reflexivity|]. cbn [snd].
    now destruct (h e w') as [[a|e'] w''].
Qed.

(** A request that passes the gate is answered when nothing on the way
    can raise. *)
Lemma create_image_answers (request : ImageGenerationRequest) (w : world Engine)
    (p : Engine) (width height : Z) :
  truthy (served_model_name w)
    && differs (req_model request) (served_model_name w)
    && differs (req_model request) (current_model w) = false ->
  pipeline w = Some p ->
  backend_never_raises X ->
  parse_size (req_size request) = Ok (width, height) ->
  req_response_format request = B64_json ->
  0 <= req_n request ->
  exists response,
    fst (create_image X request w) = Ok response /\
    Z.of_nat (List.length (data response)) = req_n request.
Proof.
  intros Hg Hp B Hsz Hfmt Hn.
  destruct (generate_images_returns p (req_prompt request) (req_n request) width height
              (req_negative_prompt request) (req_num_inference_steps request)
              (req_guidance_scale request) (req_seed request) w B Hp) as (out & Hout).
  destruct (generate_images_shape X (req_prompt request) width height
              (req_negative_prompt request) (req_num_inference_steps request)
              (req_guidance_scale request) p (req_n request) (req_seed request) w Hp)
    as (new & k & _ & _ & _ & Ho).
  destruct (Ho out Hout) as [_ Hlen].
  cbv [create_image try_except bind get lift]. rewrite Hg, Hp, Hsz. cbv beta iota.
  destruct (generate_images X (req_prompt request) (req_n request) width height
              (req_negative_prompt request) (req_num_inference_steps request)
              (req_guidance_scale request) (req_seed request) w) as [[images|e] w2];
    cbn [fst] in Hout; [injection Hout as ->|discriminate Hout].
  rewrite Hfmt, format_response_b64. cbv [call ret]. cbn [fst data app].
  eexists; split; [reflexivity|]. cbn [data]. rewrite List.length_app, length_map, Hlen.
  cbn [List.length]. lia.
Qed.

(** C6: with a served name declared, a request for a model that is neither
    the served name nor the loaded path is refused with status 421 and
    nothing else happens; a request for either of the two is never
    answered 421, and is answered with one image per count asked when the
    engine is resident, the size parses, the format is base64 and no step
    of the backend raises. *)
Theorem create_image_model_gate (request : ImageGenerationRequest) (w : world Engine) :
  truthy (served_model_name w) = true ->
  let r := create_image X request w in
  let m := req_model request in
  (Some m <> served_model_name w -> Some m <> current_model w ->
     r = (Raise (http_exception X 421
                   ("Model '" ++ m ++ "' not loaded. Current model: "
                      ++ show_or (served_model_name w) (current_model w))), w) /\
     status_of (fst r) = Some 421) /\
  (Some m = served_model_name w \/ Some m = current_model w ->
     status_of (fst r) <> Some 421 /\
     forall p width height,
       pipeline w = Some p ->
       backend_never_raises X ->
       parse_size (req_size request) = Ok (width, height) ->
       req_response_format request = B64_json ->
       0 <= req_n request ->
       exists response,
         fst r = Ok response /\
         Z.of_nat (List.length (data response)) = req_n request).
Proof.
  intros Hs r m. split.
  - intros H1 H2. apply differs_true in H1, H2.
    subst r m. cbv [create_image bind get raise]. rewrite Hs, H1, H2.
    split; reflexivity.
  - intros Hm.
    assert (Hg : truthy (served_model_name w)
                 && differs m (served_model_name w)
                 && differs m (current_model w) = false).
    { destruct Hm as [Hm|Hm]; apply differs_false in Hm; rewrite Hm;
        now rewrite ?andb_false_r. }
    split; [|intros p width height; now apply create_image_answers].
    assert (Er : r = create_image X request w) by reflexivity. clearbody r.
    unfold create_image in Er. unfold bind at 1 in Er. unfold get at 1 in Er.
    cbv beta iota in Er. fold m in Er. rewrite Hg in Er.
    destruct (pipeline w) as [p|] eqn:Ep; [|subst r; discriminate].
    match type of Er with
    | r = try_except ?body ?h w =>
        destruct (try_except_outcome body h w) as [(a & Ha & Hb)|(e & He & Hb)]
    end.
    + rewrite Er, Hb, Ha. discriminate.
    + rewrite Er, Hb. cbv [raise bind log].
      destruct (is_ValueError e); cbn; discriminate.
Qed.
End Gate.

(** ** What a run may change *)

Section Frames.
Context {Engine : Type}.
Variable R : world Engine -> world Engine -> Prop.
Hypothesis R_refl : forall w, R w w.
Hypothesis R_trans : forall w1 w2 w3, R w1 w2 -> R w2 w3 -> R w1 w3.

Lemma frames_ret {A} (a : A) : frames R (ret a).
Proof. intros w. apply R_refl. Qed.

Lemma frames_raise {A} (e : exn) : frames R (@raise Engine A e).
Proof. intros w. apply R_refl. Qed.

Lemma frames_get : frames R (@get Engine).
Proof. intros w. apply R_refl. Qed.

Lemma frames_lift {A} (r : result A) : frames R (@lift Engine A r).
Proof. intros w. apply R_refl. Qed.

Lemma frames_bind {A B} (m : M A) (k : A -> M B) :
  frames R m -> (forall a, frames R (k a)) -> frames R (bind m k).
Proof.
  intros Hm Hk w. unfold bind. specialize (Hm w).
  destruct (m w) as [[a|e] w1]; cbn [snd] in *; [|exact Hm].
  eapply R_trans; [exact Hm|apply Hk].
Qed.

Lemma frames_try_except {A} (m : M A) (h : exn -> M A) :
  frames R m -> (forall e, frames R (h e)) -> frames R (try_except m h).
Proof.
  intros Hm Hh w. unfold try_except. specialize (Hm w).
  destruct (m w) as [[a|e] w1]; cbn [snd] in *; [exact Hm|].
  specialize (Hh e w1). destruct (h e w1) as [[a|e'] w2]; cbn [snd] in *;
    eapply R_trans; eassumption.
Qed.

End Frames.

Lemma appends_refl {Engine} (allowed : event -> bool) (w : world Engine) :
  appends allowed w w.
Proof.
  split; [reflexivity|]. split; exists []; cbn [logged map]; now rewrite !app_nil_r.
Qed.

Lemma appends_trans {Engine} (allowed : event -> bool) (w1 w2 w3 : world Engine) :
  appends allowed w1 w2 -> appends allowed w2 w3 -> appends allowed w1 w3.
Proof.
  intros (Hs & (l & Hl & He) & t & Ht & Ha) (Hs' & (l' & Hl' & He') & t' & Ht' & Ha').
  split; [congruence|]. split.
  - exists (l ++ l')%list. unfold logged in *.
    now rewrite Hl', Hl, He', He, map_app, !app_assoc.
  - exists (t ++ t')%list. split; [now rewrite Ht', Ht, app_assoc|].
    now rewrite forallb_app, Ha, Ha'.
Qed.

Lemma appends_weaken {Engine} (allowed allowed' : event -> bool) (w w' : world Engine) :
  (forall ev, allowed ev = true -> allowed' ev = true) ->
  appends allowed w w' -> appends allowed' w w'.
Proof.
  intros Hw (Hs & Hl & t & Ht & Ha). split; [assumption|]. split; [assumption|].
  exists t. split; [assumption|]. rewrite forallb_forall in *. auto.
Qed.

Lemma request_frame_refl {Engine} (allowed : event -> bool) (w : world Engine) :
  request_frame allowed w w.
Proof. split; [apply appends_refl|now split]. Qed.

Lemma request_frame_trans {Engine} (allowed : event -> bool) (w1 w2 w3 : world Engine) :
  request_frame allowed w1 w2 -> request_frame allowed w2 w3 ->
  request_frame allowed w1 w3.
Proof.
  intros [A1 [P1 C1]] [A2 [P2 C2]]. split; [eapply appends_trans; eassumption|].
  split; congruence.
Qed.

Section FramedSteps.
Context {Engine Image : Type} (X : externals Engine Image).

Lemma log_appends (allowed : event -> bool) (l : level) (m : log_msg) :
  frames (appends allowed) (@log Engine l m).
Proof.
  intros w. cbn. split; [reflexivity|]. split.
  - now exists [(l, m)].
  - exists []. now rewrite app_nil_r.
Qed.

Lemma log_request_frame (allowed : event -> bool) (l : level) (m : log_msg) :
  frames (request_frame allowed) (@log Engine l m).
Proof. intros w. split; [apply log_appends|now split]. Qed.

Lemma call_appends {A} (allowed : event -> bool) (ev : event) (f : history -> result A) :
  allowed ev = true -> frames (appends allowed) (@call Engine A ev f).
Proof.
  intros Ha w. cbn. split; [reflexivity|]. split.
  - exists []. cbn. now rewrite !app_nil_r.
  - exists [ev]. split; [reflexivity|]. cbn. now rewrite Ha.
Qed.

Lemma call_request_frame {A} (allowed : event -> bool) (ev : event)
    (f : history -> result A) :
  allowed ev = true -> frames (request_frame allowed) (@call Engine A ev f).
Proof. intros Ha w. split; [now apply call_appends|now split]. Qed.

Lemma set_pipeline_appends (allowed : event -> bool) (p : Engine) :
  frames (appends allowed) (set_pipeline p).
Proof. intros w. apply (appends_refl allowed w). Qed.

Lemma set_current_model_appends (allowed : event -> bool) (m : string) :
  frames (appends allowed) (@set_current_model Engine m).
Proof. intros w. apply (appends_refl allowed w). Qed.

End FramedSteps.

(** Walks through a computation of [M], one combinator at a time. *)
Ltac appends_frame :=
  repeat first
    [ apply (frames_bind _ (appends_trans _)); [|intros ?]
    | apply (frames_try_except _ (appends_trans _)); [|intros ?]
    | apply (frames_ret _ (appends_refl _))
    | apply (frames_raise _ (appends_refl _))
    | apply (frames_get _ (appends_refl _))
    | apply (frames_lift _ (appends_refl _))
    | apply log_appends
    | apply call_appends; reflexivity
    | apply set_pipeline_appends
    | apply set_current_model_appends
    | progress cbv beta iota
    | match goal with
      | |- frames _ (match ?x with _ => _ end) => destruct x
      end ].

Ltac request_frame_by leaf :=
  repeat first
    [ leaf
    | apply (frames_bind _ (request_frame_trans _)); [|intros ?]
    | apply (frames_try_except _ (request_frame_trans _)); [|intros ?]
    | apply (frames_ret _ (request_frame_refl _))
    | apply (frames_raise _ (request_frame_refl _))
    | apply (frames_get _ (request_frame_refl _))
    | apply (frames_lift _ (request_frame_refl _))
    | apply log_request_frame
    | apply call_request_frame; reflexivity
    | progress cbv beta iota
    | match goal with
      | |- frames _ (match ?x with _ => _ end) => destruct x
      end ].

Ltac request_frame := request_frame_by fail.

Section FramedServer.
Context {Engine Image : Type} (X : externals Engine Image).

(** A load only loads: it prints nothing, leaves the served name alone,
    and calls nothing but the three constructors, the move to the device
    and the attention-slicing switch. *)
Lemma load_model_frame (model_path : string) :
  frames (appends is_loader_event) (load_model X model_path).
Proof. unfold load_model, load_model_from_dduf. appends_frame. Qed.

Lemma generate_loop_frame (p : Engine) (prompt : string) (width height : Z)
    (negative_prompt : option string) (num_inference_steps : Z)
    (guidance_scale : float) (seed : option Z) (gen : option generator)
    (indices : list Z) :
  forall images,
    frames (request_frame is_generation_event)
      (generate_loop X p prompt width height negative_prompt num_inference_steps
         guidance_scale seed gen indices images).
Proof.
  induction indices as [|i rest IH]; intros images; cbn [generate_loop].
  - request_frame.
  - unfold seeded_generator. request_frame; apply IH.
Qed.

Lemma generate_images_frame (prompt : string) (n width height : Z)
    (negative_prompt : option string) (num_inference_steps : Z)
    (guidance_scale : float) (seed : option Z) :
  frames (request_frame is_generation_event)
    (generate_images X prompt n width height negative_prompt num_inference_steps
       guidance_scale seed).
Proof.
  unfold generate_images, seeded_generator.
  request_frame; apply generate_loop_frame.
Qed.

End FramedServer.

(** ** Answers of the generation endpoint *)

Lemma exn_cls_raised_while_handling (handled e : exn) :
  exn_cls (raised_while_handling handled e) = exn_cls e.
Proof. destruct e as [c t cause [x|]]; reflexivity. Qed.

Lemma str_raised_while_handling (handled e : exn) :
  str (raised_while_handling handled e) = str e.
Proof. destruct e as [c t cause [x|]]; reflexivity. Qed.

Lemma passes_gate_false {Engine} (w : world Engine) (m : string) :
  passes_gate w m = true ->
  truthy (served_model_name w) && differs m (served_model_name w)
    && differs m (current_model w) = false.
Proof. unfold passes_gate. now rewrite negb_true_iff. Qed.

Section Answers.
Context {Engine Image : Type} (X : externals Engine Image).

Lemma format_response_url (b : bytes) (rest : list bytes) (acc : list ImageData)
    (w : world Engine) :
  format_response X Url (b :: rest) acc w
  = (Raise (http_exception X 400
              "URL response format is not supported. Use 'b64_json' instead."), w).
Proof. reflexivity. Qed.

Lemma format_response_frame (fmt : response_format) (images : list bytes) :
  forall acc, frames (request_frame is_request_event) (format_response X fmt images acc).
Proof.
  induction images as [|b rest IH]; intros acc; cbn [format_response].
  - request_frame.
  - destruct fmt; [request_frame|apply IH].
Qed.

Lemma request_frame_weaken (allowed allowed' : event -> bool) (w w' : world Engine) :
  (forall ev, allowed ev = true -> allowed' ev = true) ->
  request_frame allowed w w' -> request_frame allowed' w w'.
Proof. intros H [A K]. split; [now apply (appends_weaken allowed)|exact K]. Qed.

Lemma generate_images_request_frame (prompt : string) (n width height : Z)
    (negative_prompt : option string) (num_inference_steps : Z)
    (guidance_scale : float) (seed : option Z) :
  frames (request_frame is_request_event)
    (generate_images X prompt n width height negative_prompt num_inference_steps
       guidance_scale seed).
Proof.
  intros w. apply (request_frame_weaken is_generation_event).
  - intros ev H. unfold is_request_event. now destruct ev.
  - apply generate_images_frame.
Qed.

Lemma create_image_frame (request : ImageGenerationRequest) :
  frames (request_frame is_request_event) (create_image X request).
Proof.
  unfold create_image.
  request_frame_by
    ltac:(first [apply generate_images_request_frame | apply format_response_frame]).
Qed.

(** X10: A request only generates: whatever its answer, the engine, the
    loaded path and the served name are as before, nothing is printed, the
    error stream grows by the records of the logger and by nothing else of
    the server's own, and the only calls made are seeding, inference, PNG
    encoding and the clock. *)
Theorem create_image_only_generates (request : ImageGenerationRequest)
    (w : world Engine) :
  request_frame is_request_event w (snd (create_image X request w)).
Proof. apply create_image_frame. Qed.

Lemma parse_size_raises_ValueError (size : string) (e : exn) :
  parse_size size = Raise e -> is_ValueError e = true.
Proof.
  unfold parse_size, int.
  destruct (split "x" (lower size)) as [|a [|b [|c t]]];
    cbn [List.length Nat.eqb negb nth rbind];
    try destruct (py_int a); cbn [rbind];
    try destruct (py_int b); cbn [rbind];
    cbn; intros [= <-]; reflexivity.
Qed.

(** X11: The checks of [create_image] in their order: a request that passes the
    model check is refused with 503 when no engine is resident, whatever
    its size and format; with an engine resident a size that does not
    parse is refused with 400 and the message of [parse_size]; in both
    cases the world is exactly as before, so the engine is never called. *)
Theorem create_image_refusals (request : ImageGenerationRequest) (w : world Engine) :
  passes_gate w (req_model request) = true ->
  let r := create_image X request w in
  (pipeline w = None ->
     r = (Raise (http_exception X 503 "No model loaded. Server is not ready."), w)) /\
  (forall p e,
     pipeline w = Some p ->
     parse_size (req_size request) = Raise e ->
     status_of (fst r) = Some 400 /\ detail_of (fst r) = Some (str e) /\ snd r = w).
Proof.
  intros Hg r. apply passes_gate_false in Hg.
  assert (Er : r = create_image X request w) by reflexivity. clearbody r.
  cbv [create_image try_except bind get lift raise] in Er. rewrite Hg in Er.
  split.
  - intros Hp. now rewrite Hp in Er.
  - intros p e Hp Hs. rewrite Hp, Hs in Er.
    rewrite (parse_size_raises_ValueError _ _ Hs) in Er.
    subst r. cbn [fst snd]. repeat split.
Qed.

(** X12: When generation raises, the answer is 400 with the text of the
    exception for a [ValueError], and 500 with the text behind
    [Image generation failed: ] for anything else; the exception stays
    reachable as the context of the answer. *)
Theorem create_image_generation_failure (request : ImageGenerationRequest)
    (w w2 : world Engine) (p : Engine) (width height : Z) (e : exn) :
  passes_gate w (req_model request) = true ->
  pipeline w = Some p ->
  parse_size (req_size request) = Ok (width, height) ->
  generate_images X (req_prompt request) (req_n request) width height
    (req_negative_prompt request) (req_num_inference_steps request)
    (req_guidance_scale request) (req_seed request) w = (Raise e, w2) ->
  let r := create_image X request w in
  status_of (fst r) = Some (if is_ValueError e then 400 else 500) /\
  detail_of (fst r)
  = Some (if is_ValueError e then str e else "Image generation failed: " ++ str e) /\
  (exists answer, fst r = Raise answer /\ first_raised answer = first_raised e) /\
  trace (snd r) = trace w2.
Proof.
  intros Hg Hp Hs Hgen r. apply passes_gate_false in Hg.
  assert (Er : r = create_image X request w) by reflexivity. clearbody r.
  cbv [create_image try_except bind get lift raise log] in Er.
  rewrite Hg, Hp, Hs in Er. cbv beta iota in Er. rewrite Hgen in Er.
  destruct (is_ValueError e); subst r; cbn [fst snd status_of detail_of trace];
    repeat split; eexists; split; reflexivity.
Qed.

(** X13: With the base64 format the answer has one item per image, in the order
    of generation, each the base64 text of its PNG and nothing else, and is
    stamped with the clock read after generation. *)
Theorem create_image_envelope (request : ImageGenerationRequest)
    (w w2 : world Engine) (p : Engine) (width height : Z) (images : list bytes) :
  passes_gate w (req_model request) = true ->
  pipeline w = Some p ->
  parse_size (req_size request) = Ok (width, height) ->
  generate_images X (req_prompt request) (req_n request) width height
    (req_negative_prompt request) (req_num_inference_steps request)
    (req_guidance_scale request) (req_seed request) w = (Ok images, w2) ->
  req_response_format request = B64_json ->
  let r := create_image X request w in
  fst r = Ok {| created := time_time X (trace w2);
                data := map (b64_item X) images |} /\
  trace (snd r) = (trace w2 ++ [Time_time])%list.
Proof.
  intros Hg Hp Hs Hgen Hf r. apply passes_gate_false in Hg.
  assert (Er : r = create_image X request w) by reflexivity. clearbody r.
  cbv [create_image try_except bind get lift raise log] in Er.
  rewrite Hg, Hp, Hs in Er. cbv beta iota in Er. rewrite Hgen, Hf in Er.
  rewrite format_response_b64 in Er. subst r. split; reflexivity.
Qed.

(** X14: With the URL format the images are generated first and the answer is
    then 500: the 400 raised for the format is caught by the handler of
    generation failures. *)
Theorem create_image_url_format (request : ImageGenerationRequest)
    (w w2 : world Engine) (p : Engine) (width height : Z) (images : list bytes) :
  passes_gate w (req_model request) = true ->
  pipeline w = Some p ->
  parse_size (req_size request) = Ok (width, height) ->
  generate_images X (req_prompt request) (req_n request) width height
    (req_negative_prompt request) (req_num_inference_steps request)
    (req_guidance_scale request) (req_seed request) w = (Ok images, w2) ->
  req_response_format request = Url ->
  images <> [] ->
  let r := create_image X request w in
  status_of (fst r) = Some 500 /\
  detail_of (fst r)
  = Some ("Image generation failed: "
            ++ http_exception_str X 400
                 "URL response format is not supported. Use 'b64_json' instead.") /\
  trace (snd r) = trace w2.
Proof.
  intros Hg Hp Hs Hgen Hf Hne r. apply passes_gate_false in Hg.
  assert (Er : r = create_image X request w) by reflexivity. clearbody r.
  cbv [create_image try_except bind get lift raise log] in Er.
  rewrite Hg, Hp, Hs in Er. cbv beta iota in Er. rewrite Hgen, Hf in Er.
  destruct images as [|b rest]; [contradiction|].
  rewrite format_response_url in Er. subst r. repeat split.
Qed.

(** X15: Nothing but an [HTTPException] leaves [create_image], and its status is
    one of 421, 503, 400 and 500. *)
Theorem create_image_raises_http_only (request : ImageGenerationRequest)
    (w : world Engine) (e : exn) :
  fst (create_image X request w) = Raise e ->
  exists code detail,
    exn_cls e = HTTPException code detail /\ In code [421; 503; 400; 500].
Proof.
  unfold create_image. unfold bind at 1. unfold get at 1. cbv beta iota.
  destruct (truthy _ && _ && _).
  - intros [= <-]. exists 421. eexists. split; [reflexivity|]. cbn; auto.
  - destruct (pipeline w) as [p|].
    + match goal with
      | |- fst (try_except ?body ?h w) = _ -> _ =>
          destruct (try_except_outcome body h w) as [(a & Ha & Hb)|(e0 & He & Hb)]
      end.
      * rewrite Hb, Ha. discriminate.
      * rewrite Hb. cbv [raise bind log].
        destruct (is_ValueError e0); cbn [fst]; intros [= <-];
          rewrite ?exn_cls_raised_while_handling;
          [exists 400|exists 500]; eexists; (split; [reflexivity|cbn; auto]).
    + intros [= <-]. exists 503. eexists. split; [reflexivity|]. cbn; auto.
Qed.

End Answers.

(** ** More on generation *)

Section Unseeded.
Context {Engine Image : Type} (X : externals Engine Image).
Variables (prompt : string) (width height : Z)
          (negative_prompt : option string) (num_inference_steps : Z)
          (guidance_scale : float).

Lemma frames_bind_ret {A B} (R : world Engine -> world Engine -> Prop)
    (a : A) (k : A -> M B) :
  frames R (k a) -> frames R (bind (ret a) k).
Proof. intros H w. exact (H w). Qed.

Lemma generate_loop_unseeded (p : Engine) (gen : option generator) (indices : list Z) :
  forall images,
    frames (request_frame is_unseeded_event)
      (generate_loop X p prompt width height negative_prompt num_inference_steps
         guidance_scale None gen indices images).
Proof.
  induction indices as [|i rest IH]; intros images; cbn [generate_loop].
  - request_frame.
  - destruct gen; cbv beta iota; apply frames_bind_ret;
      request_frame_by ltac:(apply IH).
Qed.

(** X6: A request without a seed seeds no generator: whatever the count, the
    only calls are inference with no generator and PNG encoding; the
    globals stay as they are, nothing is printed, and the error stream
    grows by the records of the logger and by nothing else of the server's
    own. *)
Theorem generate_images_unseeded (n : Z) (w : world Engine) :
  request_frame is_unseeded_event w
    (snd (generate_images X prompt n width height negative_prompt
            num_inference_steps guidance_scale None w)).
Proof.
  revert w.
  change (frames (request_frame is_unseeded_event)
            (generate_images X prompt n width height negative_prompt
               num_inference_steps guidance_scale None)).
  unfold generate_images.
  apply (frames_bind _ (request_frame_trans _)); [request_frame|intros w].
  destruct (pipeline w) as [p|]; [|request_frame].
  apply frames_bind_ret.
  request_frame_by ltac:(apply generate_loop_unseeded).
Qed.

Lemma range_nonpositive (n : Z) : n <= 0 -> range n = [].
Proof. intros H. unfold range. now replace (Z.to_nat n) with 0%nat by lia. Qed.

(** X7: A count of zero or less asks for nothing: the engine is not called, a
    call that returns returns the empty list, and without a seed the call
    does return. *)
Theorem generate_images_empty_count (p : Engine) (n : Z) (seed : option Z)
    (w : world Engine) :
  n <= 0 ->
  pipeline w = Some p ->
  let r := generate_images X prompt n width height negative_prompt
             num_inference_steps guidance_scale seed w in
  (exists new, trace (snd r) = (trace w ++ new)%list /\ call_generators new = []) /\
  (forall out, fst r = Ok out -> out = []) /\
  (seed = None -> fst r = Ok []).
Proof.
  intros Hn Hp r.
  destruct (generate_images_shape X prompt width height negative_prompt
              num_inference_steps guidance_scale p n seed w Hp)
    as (new & k & Ht & Hk & Hg & Ho).
  fold r in Ht, Ho.
  assert (k = 0%nat) by lia. subst k.
  split; [|split].
  - exists new. split; [exact Ht|]. now rewrite Hg.
  - intros out H. destruct (Ho out H) as [_ Hl].
    destruct out; [reflexivity|]. cbn [List.length] in Hl. lia.
  - intros ->.
    pose proof (generate_images_run X p prompt width height negative_prompt
                  num_inference_steps guidance_scale None n w Hp) as R.
    cbv beta iota zeta in R. fold r in R.
    destruct R as (w1 & _ & _ & _ & Hf & _).
    rewrite Hf, range_nonpositive by exact Hn. reflexivity.
Qed.

End Unseeded.

(** ** More on loading *)

Section LoaderMore.
Context {Engine Image : Type} (X : externals Engine Image).

(** X2: A load only loads, on one device in one precision: it prints
    nothing, writes nothing but the records of its logger on the error
    stream, and leaves the served name alone; the device is CUDA when there
    is one, else MPS when there is one, else the CPU, in 16-bit floats on
    an accelerator and 32-bit floats on the CPU; and it calls nothing but
    constructors in that precision, the move to that device and the
    attention-slicing switch. *)
Theorem load_model_uses_selected_device (model_path : string) (w : world Engine) :
  let dev := fst (select_device X) in
  let dt := snd (select_device X) in
  appends (loads_with dev dt) w (snd (load_model X model_path w)) /\
  (dt = Float32 <-> dev = Cpu) /\
  (cuda_is_available X = true -> dev = Cuda /\ dt = Float16) /\
  (cuda_is_available X = false -> mps_is_available X = true ->
   dev = Mps /\ dt = Float16) /\
  (cuda_is_available X = false -> mps_is_available X = false ->
   dev = Cpu /\ dt = Float32).
Proof.
  cbv zeta. split.
  - revert w.
    change (frames (appends (loads_with (fst (select_device X)) (snd (select_device X))))
              (load_model X model_path)).
    unfold load_model, load_model_from_dduf.
    destruct (select_device X) as [[] []]; cbn [fst snd]; appends_frame.
  - unfold select_device.
    destruct (cuda_is_available X), (mps_is_available X); cbn;
      repeat split; intros; congruence.
Qed.

(** X3: The load of a packaged archive calls the generic constructor with an
    archive file name and moves the pipeline, and nothing else: attention
    slicing is never switched on for an archive. *)
Theorem archive_load_never_slices (model_path : string) (w : world Engine) :
  is_dduf_file (os_path X) model_path = true ->
  appends is_archive_event w (snd (load_model X model_path w)).
Proof.
  intros Hd. revert w.
  change (frames (appends is_archive_event) (load_model X model_path)).
  unfold load_model. rewrite Hd. unfold load_model_from_dduf. appends_frame.
Qed.

(** A load that returned has its engine and its path in the globals. *)
Lemma load_model_returned (model_path : string) (w : world Engine) (p : Engine) :
  fst (load_model X model_path w) = Ok p ->
  pipeline (snd (load_model X model_path w)) = Some p /\
  current_model (snd (load_model X model_path w)) = Some model_path.
Proof.
  intros Hr. destruct (already_loaded w model_path) as [q|] eqn:Hl.
  - destruct (load_model_resident X model_path w q Hl) as (Hf & _ & Hp & Hc).
    rewrite Hf in Hr. injection Hr as ->.
    apply already_loaded_some in Hl as [Hp' Hc']. split; congruence.
  - now apply load_model_installs.
Qed.

(** X5: Loading the same path again after a load that returned returns the
    same engine and calls nothing. *)
Theorem load_model_twice (model_path : string) (w : world Engine) (p : Engine) :
  fst (load_model X model_path w) = Ok p ->
  let w1 := snd (load_model X model_path w) in
  fst (load_model X model_path w1) = Ok p /\
  trace (snd (load_model X model_path w1)) = trace w1 /\
  pipeline (snd (load_model X model_path w1)) = Some p /\
  current_model (snd (load_model X model_path w1)) = Some model_path.
Proof.
  intros Hr w1.
  destruct (load_model_returned model_path w p Hr) as [Hp Hc]. fold w1 in Hp, Hc.
  destruct (load_model_resident X model_path w1 p) as (Hf & Ht & Hp' & Hc').
  { now apply already_loaded_some. }
  repeat split; congruence.
Qed.

(** A load never unloads: with an engine resident before, one is resident
    after, whether the load returns or raises. *)
Lemma load_model_keeps_an_engine (model_path : string) (w : world Engine) :
  pipeline w <> None -> pipeline (snd (load_model X model_path w)) <> None.
Proof.
  intros Hp. destruct (already_loaded w model_path) as [q|] eqn:Hl.
  - destruct (load_model_resident X model_path w q Hl) as (_ & _ & Hp' & _).
    now rewrite Hp'.
  - destruct (is_dduf_file (os_path X) model_path) eqn:Hd.
    + pose proof (load_model_archive X model_path w Hd Hl) as L. cbv zeta in L.
      destruct (diffusion_from_pretrained X _ _ _ _);
        [destruct (pipeline_to X _ _ _)|];
        destruct L as (_ & _ & Hp' & _); rewrite Hp'; congruence.
    + pose proof (load_model_ladder X model_path w Hd Hl) as L. cbv zeta in L.
      destruct (auto_from_pretrained X _ model_path _);
        [|destruct (sd_from_pretrained X _ model_path _);
          [|destruct (diffusion_from_pretrained X _ model_path None _)]];
        try (destruct (pipeline_to X _ _ _);
             [destruct (has_enable_attention_slicing X _);
              [destruct (enable_attention_slicing X _ _)|]|]);
        destruct L as (_ & _ & Hp' & _); rewrite Hp'; congruence.
Qed.

Lemma load_model_current_model (model_path : string) (w : world Engine) :
  current_model (snd (load_model X model_path w)) = current_model w \/
  (current_model (snd (load_model X model_path w)) = Some model_path /\
   pipeline (snd (load_model X model_path w)) <> None).
Proof.
  destruct (already_loaded w model_path) as [q|] eqn:Hl.
  - destruct (load_model_resident X model_path w q Hl) as (_ & _ & _ & Hc). now left.
  - destruct (is_dduf_file (os_path X) model_path) eqn:Hd.
    + pose proof (load_model_archive X model_path w Hd Hl) as L. cbv zeta in L.
      destruct (diffusion_from_pretrained X _ _ _ _);
        [destruct (pipeline_to X _ _ _)|];
        destruct L as (_ & _ & Hp' & Hc);
        first [left; exact Hc | right; split; [exact Hc|rewrite Hp'; discriminate]].
    + pose proof (load_model_ladder X model_path w Hd Hl) as L. cbv zeta in L.
      destruct (auto_from_pretrained X _ model_path _);
        [|destruct (sd_from_pretrained X _ model_path _);
          [|destruct (diffusion_from_pretrained X _ model_path None _)]];
        try (destruct (pipeline_to X _ _ _);
             [destruct (has_enable_attention_slicing X _);
              [destruct (enable_attention_slicing X _ _)|]|]);
        destruct L as (_ & _ & Hp' & Hc);
        first [left; exact Hc | right; split; [exact Hc|rewrite Hp'; discriminate]].
Qed.

(** X8: Health is never ahead of readiness: if a recorded model path always
    comes with a resident engine before a load or a request, it does so
    after it, so that whenever [/health] reports a loaded model,
    [generate_images] finds its engine. *)
Theorem health_implies_ready (model_path : string) (request : ImageGenerationRequest)
    (w : world Engine) :
  ready_if_loaded w ->
  ready_if_loaded (snd (load_model X model_path w)) /\
  ready_if_loaded (snd (create_image X request w)) /\
  (fst (health w) = Ok {| health_status := "healthy"; model_loaded := true |} ->
   pipeline w <> None).
Proof.
  intros Inv. split; [|split].
  - intros Hc. destruct (load_model_current_model model_path w) as [E|[_ Hp]];
      [|exact Hp].
    rewrite E in Hc. now apply load_model_keeps_an_engine, Inv.
  - destruct (create_image_frame X request w) as [_ [Hp Hc]].
    unfold ready_if_loaded. rewrite Hp, Hc. exact Inv.
  - cbv [health bind get ret]. cbn [fst].
    intros H. apply Inv. destruct (current_model w); [discriminate|].
    inversion H.
Qed.

(** X16: After a load that returned, a request that names the loaded path is
    not turned away: its answer is neither 421 nor 503, whatever name the
    model is served under. *)
Theorem loaded_path_is_accepted (model_path : string) (request : ImageGenerationRequest)
    (w : world Engine) (p : Engine) :
  fst (load_model X model_path w) = Ok p ->
  req_model request = model_path ->
  let w1 := snd (load_model X model_path w) in
  passes_gate w1 model_path = true /\
  status_of (fst (create_image X request w1)) <> Some 421 /\
  status_of (fst (create_image X request w1)) <> Some 503.
Proof.
  intros Hr Hm w1.
  destruct (load_model_returned model_path w p Hr) as [Hp Hc]. fold w1 in Hp, Hc.
  assert (Hg : passes_gate w1 model_path = true).
  { unfold passes_gate. rewrite Hc.
    replace (differs model_path (Some model_path)) with false
      by (symmetry; now apply differs_false).
    now rewrite andb_false_r. }
  split; [exact Hg|].
  assert (Er : exists r, r = create_image X request w1) by (eexists; reflexivity).
  destruct Er as (r & Er). rewrite <- Er.
  unfold create_image in Er. unfold bind at 1 in Er. unfold get at 1 in Er.
  cbv beta iota in Er. rewrite Hm in Er.
  rewrite (passes_gate_false _ _ Hg), Hp in Er.
  match type of Er with
  | r = try_except ?body ?h w1 =>
      destruct (try_except_outcome body h w1) as [(a & Ha & Hb)|(e & He & Hb)]
  end.
  - rewrite Er, Hb, Ha. split; discriminate.
  - rewrite Er, Hb. cbv [raise bind log].
    destruct (is_ValueError e); cbn; split; discriminate.
Qed.

End LoaderMore.

(** ** The two arguments of the archive constructor *)

Lemma substring_app_head (a b : string) : substring 0 (String.length a) (a ++ b) = a.
Proof.
  induction a as [|c a IH]; cbn [String.length append substring].
  - destruct b; reflexivity.
  - now rewrite IH.
Qed.

(** A path is a head that is empty or ends in a slash, followed by a file
    name without a slash. *)
Lemma path_head_and_name (p : string) :
  exists head,
    p = head ++ after_last_slash p /\
    (head = "" \/ exists d, head = d ++ "/") /\
    contains_char "/" (after_last_slash p) = false.
Proof.
  induction p as [|c r (head & Hp & Hh & Hn)].
  - exists "". repeat split; auto.
  - cbn [after_last_slash]. destruct (contains_char "/" r) eqn:Hr.
    + exists (String c head). split; [cbn [append]; now rewrite <- Hp|].
      split; [|exact Hn]. right. destruct Hh as [->|[d ->]].
      * cbn [append] in Hp. rewrite <- Hp in Hn. congruence.
      * now exists (String c d).
    + destruct (Ascii.eqb_spec c "/") as [->|Hc].
      * exists "/". repeat split; auto. right. now exists "".
      * exists "". repeat split; auto.
        rewrite contains_char_cons, Hr, orb_false_r.
        apply Ascii.eqb_neq. congruence.
Qed.

Section ArchiveArguments.
Context {Engine Image : Type} (X : externals Engine Image).

(** X4: The load of a packaged archive cuts the path after its last slash: the
    part after it is the file name handed over as [dduf_file], and the part
    up to it, stripped of its trailing slashes unless it is empty or all
    slashes, is the directory.  A bare file name is loaded from the
    directory with the empty name. *)
Theorem archive_load_splits_path (model_path : string) (w : world Engine) :
  is_dduf_file (os_path X) model_path = true ->
  already_loaded w model_path = None ->
  exists head name,
    model_path = head ++ name /\
    contains_char "/" name = false /\
    (head = "" \/ exists d, head = d ++ "/") /\
    nth_error (trace (snd (load_model X model_path w))) (List.length (trace w))
    = Some (DiffusionPipeline_from_pretrained
              (if all_slashes head then head else rstrip_slash head)
              (Some name) (snd (select_device X))).
Proof.
  intros Hd Hl. destruct (path_head_and_name model_path) as (head & Hp & Hh & Hn).
  exists head, (after_last_slash model_path). repeat split; try assumption.
  assert (Hdir : dirname model_path
                 = if all_slashes head then head else rstrip_slash head).
  { assert (Hsub : substring 0 (String.length model_path
                                - String.length (after_last_slash model_path))
                     model_path = head).
    { replace (String.length model_path
               - String.length (after_last_slash model_path))%nat
        with (String.length head)
        by (rewrite Hp at 1; rewrite string_length_app; lia).
      rewrite Hp at 1. apply substring_app_head. }
    unfold dirname, basename. cbv zeta. rewrite Hsub.
    destruct head as [|c r]; [reflexivity|].
    cbn [String.eqb negb andb]. now destruct (all_slashes (String c r)). }
  pose proof (load_model_archive X model_path w Hd Hl) as L. cbv zeta in L.
  rewrite Hdir in L. fold (basename model_path).
  assert (Hnth : forall rest,
             nth_error (trace w ++ DiffusionPipeline_from_pretrained
                          (if all_slashes head then head else rstrip_slash head)
                          (Some (basename model_path)) (snd (select_device X)) :: rest)%list
               (List.length (trace w))
             = Some (DiffusionPipeline_from_pretrained
                          (if all_slashes head then head else rstrip_slash head)
                          (Some (basename model_path)) (snd (select_device X)))).
  { intros rest. rewrite nth_error_app2, Nat.sub_diag by lia. reflexivity. }
  destruct (diffusion_from_pretrained X _ _ _ _);
    [destruct (pipeline_to X _ _ _)|];
    destruct L as (_ & -> & _); apply Hnth.
Qed.

End ArchiveArguments.

(** ** The model list *)

Section ModelList.
Context {Engine Image : Type} (X : externals Engine Image).

(** X9: [/v1/models] always answers; it advertises no name twice, the served
    name first; every name it advertises passes the model check of
    [create_image]; and when a served name is declared, every non-empty
    name that passes the check is advertised. *)
Theorem list_models_advertises_accepted (w : world Engine) :
  exists l,
    fst (list_models X w) = Ok l /\
    list_object l = "list" /\
    NoDup (advertised l) /\
    (truthy (served_model_name w) = true ->
     hd_error (advertised l) = served_model_name w) /\
    (forall card, In card (list_data l) ->
                  card_object card = "model" /\ card_owned_by card = "diffusers") /\
    (forall m, In m (advertised l) -> m <> "" /\ passes_gate w m = true) /\
    (truthy (served_model_name w) = true ->
     forall m, m <> "" -> passes_gate w m = true -> In m (advertised l)).
Proof.
  cbv [list_models model_card bind get ret call]. unfold passes_gate, advertised.
  destruct (served_model_name w) as [[|c r]|] eqn:Es;
    destruct (current_model w) as [[|c' r']|] eqn:Ec; cbv beta iota;
    try (destruct (differs (String c' r') _) eqn:Hd; cbv beta iota);
    cbn [fst snd trace]; eexists; (split; [reflexivity|]);
    cbn [list_object list_data map Datatypes.app card_id In truthy andb negb];
    (split; [reflexivity|]).
  all: try (apply differs_true in Hd).
  all: try (apply differs_false in Hd).
  all: split; [repeat constructor; cbn [In]; intuition congruence|].
  all: split; [first [discriminate | reflexivity]|].
  all: split; [intros card Hc; cbn [In] in Hc; intuition (subst; reflexivity)|].
  all: split; [intros m Hm; cbn [In] in Hm; split;
               [intuition (subst; discriminate)|
                try reflexivity; rewrite negb_true_iff, andb_false_iff, !differs_false;
                intuition (subst; auto)]
              |].
  all: try (intros Hf; discriminate Hf).
  all: intros _ m Hne Hg; rewrite negb_true_iff, andb_false_iff, !differs_false in Hg;
    cbn [In]; intuition congruence.
Qed.

End ModelList.

(** ** Size strings that are refused *)


(** ** Startup *)

Lemma root_cause_without_cause (e : exn) : cause_of e = None -> root_cause e = e.
Proof. destruct e as [c t [x|] ctx]; [discriminate|reflexivity]. Qed.

(** What [main] prints when startup fails: the prefix and the text of the
    end of the [__cause__] chain, as the last write on the error stream,
    and then the exit status 1. *)
Lemma main_diagnostic {Engine Image : Type} (X : externals Engine Image)
    (a : args) (w0 : world Engine) (status : Z) :
  fst (main X a w0) = Exit status ->
  status = 1 /\
  exists (e : exn) (w : world Engine),
    stderr (snd (main X a w0))
    = (stderr w ++ [Printed ("DIFFUSERS_ERROR: " ++ str (root_cause e))])%list.
Proof.
  unfold main.
  destruct (bind (load_model X (arg_model_path a)) _ _) as [[u|e] w];
    cbn [fst snd]; [discriminate|].
  intros [= <-]. split; [reflexivity|]. exists e, w. cbv [print_stderr]. cbn [snd stderr].
  destruct (cause_of e) eqn:Ec; [reflexivity|].
  now rewrite (root_cause_without_cause e Ec).
Qed.

(** C9 on the code: the archive constructor raises with the text
    [bad archive]; the loader wraps it without [from], so the wrapper has a
    [__context__] and no [__cause__]; [main] follows [__cause__] only and
    prints the text of the wrapper, not the innermost message, as its
    one print and last write on the error stream before it exits with
    status 1. *)
Theorem main_prints_wrapper_text :
  let X := scripted broken_archive in
  let original := new_exn (OtherException "OSError") "bad archive" in
  let out := main X (sample_args "/models/sd.dduf") empty_world in
  diffusion_from_pretrained X [] "/models" (Some "sd.dduf") Float16 = Raise original /\
  fst (load_model X "/models/sd.dduf" empty_world) = Raise (dduf_load_error original) /\
  cause_of (dduf_load_error original) = None /\
  str (first_raised (dduf_load_error original)) = "bad archive" /\
  fst out = Exit 1 /\
  printed (stderr (snd out))
  = ["DIFFUSERS_ERROR: Failed to load DDUF file: bad archive"] /\
  printed (stderr (snd out)) <> ["DIFFUSERS_ERROR: bad archive"] /\
  last (stderr (snd out)) (Printed "")
  = Printed "DIFFUSERS_ERROR: Failed to load DDUF file: bad archive".
Proof.
  cbv zeta. repeat split; try (vm_compute; reflexivity).
  vm_compute. discriminate.
Qed.

(** ** Startup, whole *)

Lemma root_cause_print (e : exn) :
  match cause_of e with Some _ => str (root_cause e) | None => str e end
  = str (root_cause e).
Proof. destruct (cause_of e) eqn:Ec; [reflexivity|]. now rewrite root_cause_without_cause. Qed.

Section Startup.
Context {Engine Image : Type} (X : externals Engine Image).

(** X17: [main] serves under [--served-model-name], or under the model path when
    the option is absent or empty.  It loads first; the server is started
    once, after the calls of the load, exactly when the load returned, and
    then the loaded engine is resident under the model path.  Up to its
    end [main] writes only logger records on the error stream; it returns
    without a print when the server returns; when the load or the server
    raises, it prints once, as its last write, [DIFFUSERS_ERROR: ] and the
    text at the end of the [__cause__] chain, and exits with status 1. *)
Theorem main_outcome (a : args) (w0 : world Engine) :
  let served := match arg_served_model_name a with
                | Some (String c r) => String c r
                | _ => arg_model_path a
                end in
  let started := Uvicorn_run (arg_host a) (arg_port a) in
  let diagnostic e := Printed ("DIFFUSERS_ERROR: " ++ str (root_cause e)) in
  let loaded := load_model X (arg_model_path a) (snd (set_served_model_name served w0)) in
  let out := main X a w0 in
  served_model_name (snd out) = Some served /\
  exists t records,
    forallb is_loader_event t = true /\
    match fst loaded with
    | Raise e =>
        fst out = Exit 1 /\
        trace (snd out) = (trace w0 ++ t)%list /\
        stderr (snd out) = (stderr w0 ++ logged records ++ [diagnostic e])%list
    | Ok p =>
        trace (snd out) = (trace w0 ++ t ++ [started])%list /\
        pipeline (snd out) = Some p /\
        current_model (snd out) = Some (arg_model_path a) /\
        match uvicorn_run X (trace w0 ++ t)%list (arg_host a) (arg_port a) with
        | Ok _ => fst out = Returned /\
                  stderr (snd out) = (stderr w0 ++ logged records)%list
        | Raise e => fst out = Exit 1 /\
                     stderr (snd out)
                     = (stderr w0 ++ logged records ++ [diagnostic e])%list
        end
    end.
Proof.
  cbv zeta. unfold main.
  set (served := match arg_served_model_name a with
                 | Some (String c r) => String c r
                 | _ => arg_model_path a
                 end).
  set (w1 := snd (set_served_model_name served w0)).
  pose proof (load_model_frame X (arg_model_path a) w1)
    as (Hs & (l & _ & He) & t & Ht & Hall).
  pose proof (load_model_returned X (arg_model_path a) w1) as Hret.
  cbv [bind]. destruct (load_model X (arg_model_path a) w1) as [[p|e] w2].
  - cbn [fst snd] in *. destruct (Hret p eq_refl) as [Hp Hc].
    cbv [log call]. cbn [trace pipeline current_model served_model_name stderr].
    rewrite Ht. change (trace w1) with (trace w0).
    assert (Hserved : served_model_name w2 = Some served) by (rewrite Hs; reflexivity).
    assert (Herr : (stderr w2 ++ [Logged INFO (Starting_server (arg_host a) (arg_port a))])%list
                   = (stderr w0
                        ++ logged (l ++ [(INFO, Starting_server (arg_host a) (arg_port a))]))%list).
    { rewrite He. change (stderr w1) with (stderr w0).
      unfold logged. now rewrite map_app, app_assoc. }
    destruct (uvicorn_run X _ _ _) as [u|e] eqn:Hu; cbn [fst snd served_model_name];
      (split; [exact Hserved|]); exists t;
      exists (l ++ [(INFO, Starting_server (arg_host a) (arg_port a))])%list;
      (split; [exact Hall|]);
      rewrite Hu; cbv [print_stderr]; cbn [fst snd trace pipeline current_model stderr];
      rewrite ?Ht, ?Herr, ?root_cause_print, <- ?app_assoc; auto.
  - cbn [fst snd] in *. cbv [print_stderr]. cbn [fst snd served_model_name trace stderr].
    split; [rewrite Hs; reflexivity|]. exists t, l. split; [exact Hall|].
    rewrite Ht, He, root_cause_print, <- app_assoc. auto.
Qed.

End Startup.

(** ** The properties at work on the scripted backend *)

Lemma scripted_deterministic (s : script) : deterministic_backend (scripted s).
Proof.
  repeat split; intros; cbn; try reflexivity.
  destruct (arg_generator a) as [g|]; [reflexivity|contradiction].
Qed.

Lemma scripted_never_raises (s : script) : backend_never_raises (scripted s).
Proof. repeat split; intros; cbn; eauto. Qed.

(** C1 at work: a batch of two with seed 7, and the single request with
    seed 8 that gives its second image again. *)
Lemma generate_images_seeded_witness :
  pipeline serving_world = Some "auto:org/model" /\
  1 <= 2 /\
  deterministic_backend (scripted healthy) /\
  fst (generate_images (scripted healthy) "a cat" 1 512 512 None 50
         default_guidance_scale (Some (7 + 1)) serving_world)
  = Ok [nth (Z.to_nat 1) [[Byte.x07]; [Byte.x08]] []].
Proof.
  split; [reflexivity|]. split; [lia|]. split; [apply scripted_deterministic|].
  destruct (generate_images_seeded (scripted healthy) "a cat" 512 512 None 50
              default_guidance_scale "auto:org/model" 2 7 serving_world
              eq_refl ltac:(lia)) as [_ D].
  destruct (D (scripted_deterministic healthy)) as [_ Single].
  apply Single; [reflexivity|lia|reflexivity].
Defined.

(** C2 at work: the first strategy raises, the second builds the pipeline,
    the third is not tried. *)
Lemma load_model_fallback_order_witness :
  is_dduf_file (os_path (scripted auto_rejects)) "org/model" = false /\
  already_loaded empty_world "org/model" = None /\
  exists rest,
    trace (snd (load_model (scripted auto_rejects) "org/model" empty_world))
    = ([] ++ [AutoPipeline_from_pretrained "org/model" Float16;
              StableDiffusionPipeline_from_pretrained "org/model" Float16] ++ rest)%list /\
    constructions rest = [].
Proof.
  split; [reflexivity|]. split; [reflexivity|].
  destruct (load_model_fallback_order (scripted auto_rejects) "org/model" empty_world
              eq_refl eq_refl) as (Order & _ & _).
  exact Order.
Defined.

(** C3 at work: the archive is there, its constructor raises, and the load
    ends with the wrapped exception. *)
Lemma load_model_dduf_fatal_witness :
  is_dduf_file (os_path (scripted broken_archive)) "/models/sd.dduf" = true /\
  already_loaded empty_world "/models/sd.dduf" = None /\
  fst (load_model (scripted broken_archive) "/models/sd.dduf" empty_world)
  = Raise (dduf_load_error (new_exn (OtherException "OSError") "bad archive")) /\
  trace (snd (load_model (scripted broken_archive) "/models/sd.dduf" empty_world))
  = ([] ++ [DiffusionPipeline_from_pretrained "/models" (Some "sd.dduf") Float16])%list.
Proof.
  split; [reflexivity|]. split; [reflexivity|].
  destruct (load_model_dduf_fatal (scripted broken_archive) "/models/sd.dduf" empty_world
              eq_refl eq_refl) as (_ & _ & Fatal).
  apply Fatal. reflexivity.
Defined.

(** C4 at work: the default size is read as 512 by 512. *)
Lemma parse_size_reads_two_ints_witness :
  within_int_limit 512 /\ parse_size "512x512" = Ok (512, 512).
Proof.
  assert (L : within_int_limit 512) by (cbv; discriminate).
  split; [exact L|].
  destruct parse_size_reads_two_ints as (Reads & _).
  exact (proj1 (Reads 512%positive 512%positive L L)).
Defined.

(** C5 at work: nothing is at the path, so the extension does not make it
    an archive. *)
Lemma classify_packaged_archive_witness :
  already_loaded empty_world "/models/missing.dduf" = None /\
  classify (os_path (scripted healthy)) "/models/missing.dduf"
  = RemoteIdentifier "/models/missing.dduf".
Proof.
  split; [reflexivity|].
  destruct (classify_packaged_archive (scripted healthy) "/models/missing.dduf"
              empty_world eq_refl) as (_ & Table & _).
  exact Table.
Defined.

(** C6 at work: the server serves [sd], loaded from [org/model]; a request
    for [other] is answered 421, a request for [sd] with two images. *)
Lemma create_image_model_gate_witness :
  truthy (served_model_name serving_world) = true /\
  status_of (fst (create_image (scripted healthy) (sample_request "other") serving_world))
  = Some 421 /\
  exists response,
    fst (create_image (scripted healthy) (sample_request "sd") serving_world)
    = Ok response /\
    Z.of_nat (List.length (data response)) = 2.
Proof.
  split; [reflexivity|]. split.
  - destruct (create_image_model_gate (scripted healthy) (sample_request "other")
                serving_world eq_refl) as (Refused & _).
    apply Refused; discriminate.
  - destruct (create_image_model_gate (scripted healthy) (sample_request "sd")
                serving_world eq_refl) as (_ & Passed).
    destruct (Passed (or_introl eq_refl)) as (_ & Answered).
    apply (Answered "auto:org/model" 512 512 eq_refl (scripted_never_raises healthy)
             eq_refl eq_refl).
    cbn. lia.
Defined.

(** C7 at work: with nothing loaded the call raises without a trace; with
    an engine resident a request for two images raises or returns two, the
    encodings of its two engine calls in their order. *)
Lemma generate_images_all_or_nothing_witness :
  let X := scripted healthy in
  let r := generate_images X "a cat" 2 512 512 None 50 default_guidance_scale
             None serving_world in
  0 <= 2 /\
  generate_images X "a cat" 2 512 512 None 50 default_guidance_scale None empty_world
  = (Raise (new_exn RuntimeError "No model loaded"), empty_world) /\
  pipeline serving_world = Some "auto:org/model" /\
  ((exists e, fst r = Raise e) \/
   (exists images new,
       fst r = Ok images /\ Z.of_nat (List.length images) = 2 /\
       trace (snd r) = (trace serving_world ++ new)%list /\
       List.length (call_generators new) = List.length images /\
       call_generators new
       = map (loop_generator (generator_device X) None None) (range 2) /\
       images = call_buffers X "auto:org/model" (trace serving_world) new)).
Proof.
  intros X r. split; [lia|]. split.
  - destruct (generate_images_all_or_nothing X "a cat" 512 512 None 50
                default_guidance_scale 2 None empty_world ltac:(lia)) as (Unready & _).
    apply Unready. reflexivity.
  - split; [reflexivity|].
    destruct (generate_images_all_or_nothing X "a cat" 512 512 None 50
                default_guidance_scale 2 None serving_world ltac:(lia)) as (_ & Ready).
    exact (Ready "auto:org/model" eq_refl).
Defined.

(** C8 at work: the engine of [org/model] is resident and is returned as it
    is; a load of another path starts with a construction and puts the
    engine it built in the place of the resident one. *)
Lemma load_model_idempotent_witness :
  let X := scripted healthy in
  let r := load_model X "org/other" serving_world in
  pipeline serving_world = Some "auto:org/model" /\
  current_model serving_world = Some "org/model" /\
  current_model serving_world <> Some "org/other" /\
  fst (load_model X "org/model" serving_world) = Ok "auto:org/model" /\
  trace (snd (load_model X "org/model" serving_world)) = trace serving_world /\
  (exists first rest,
      trace (snd r) = (trace serving_world ++ first :: rest)%list /\
      is_construction first = true) /\
  fst r = Ok "auto:org/other" /\
  pipeline (snd r) = Some "auto:org/other" /\
  current_model (snd r) = Some "org/other" /\
  exists new,
    trace (snd r) = (trace serving_world ++ new)%list /\
    engine_built X (trace serving_world) new None = Some "auto:org/other".
Proof.
  intros X r.
  split; [reflexivity|]. split; [reflexivity|]. split; [discriminate|].
  destruct (load_model_idempotent X "org/model" serving_world) as (Same & _).
  destruct (Same "auto:org/model" eq_refl eq_refl) as (Hf & Ht & _).
  split; [exact Hf|]. split; [exact Ht|].
  destruct (load_model_idempotent X "org/other" serving_world) as (_ & Other).
  destruct Other as (Rebuilt & Installed); [discriminate|].
  split; [exact Rebuilt|]. split; [reflexivity|].
  exact (Installed "auto:org/other" eq_refl).
Defined.

(** ** More of the properties at work *)

Lemma pair_of_fst {A B} (p : A * B) (a : A) : fst p = a -> p = (a, snd p).
Proof. destruct p; cbn; now intros ->. Qed.


(** X3 at work: the archive of the scripted backend is loaded without the
    attention-slicing switch. *)
Lemma archive_load_never_slices_witness :
  is_dduf_file (os_path (scripted healthy)) "/models/sd.dduf" = true /\
  appends is_archive_event empty_world
    (snd (load_model (scripted healthy) "/models/sd.dduf" empty_world)).
Proof.
  split; [reflexivity|].
  exact (archive_load_never_slices (scripted healthy) "/models/sd.dduf" empty_world
           eq_refl).
Defined.

(** X4 at work: [/models/sd.dduf] is loaded as the file [sd.dduf] of the
    directory [/models]. *)
Lemma archive_load_splits_path_witness :
  is_dduf_file (os_path (scripted healthy)) "/models/sd.dduf" = true /\
  already_loaded empty_world "/models/sd.dduf" = None /\
  exists head name,
    "/models/sd.dduf" = head ++ name /\
    contains_char "/" name = false /\
    (head = "" \/ exists d, head = d ++ "/") /\
    nth_error (trace (snd (load_model (scripted healthy) "/models/sd.dduf" empty_world)))
      (List.length (trace empty_world))
    = Some (DiffusionPipeline_from_pretrained
              (if all_slashes head then head else rstrip_slash head)
              (Some name) (snd (select_device (scripted healthy)))).
Proof.
  split; [reflexivity|]. split; [reflexivity|].
  exact (archive_load_splits_path (scripted healthy) "/models/sd.dduf" empty_world
           eq_refl eq_refl).
Defined.

(** X5 at work: the second load of [org/model] returns the engine of the
    first and calls nothing. *)
Lemma load_model_twice_witness :
  fst (load_model (scripted healthy) "org/model" empty_world) = Ok "auto:org/model" /\
  let w1 := snd (load_model (scripted healthy) "org/model" empty_world) in
  fst (load_model (scripted healthy) "org/model" w1) = Ok "auto:org/model" /\
  trace (snd (load_model (scripted healthy) "org/model" w1)) = trace w1.
Proof.
  split; [reflexivity|].
  destruct (load_model_twice (scripted healthy) "org/model" empty_world "auto:org/model"
              eq_refl) as (Hf & Ht & _).
  split; [exact Hf|exact Ht].
Defined.

(** X7 at work: a count of zero returns the empty list. *)
Lemma generate_images_empty_count_witness :
  0 <= 0 /\
  pipeline serving_world = Some "auto:org/model" /\
  fst (generate_images (scripted healthy) "a cat" 0 512 512 None 50
         default_guidance_scale None serving_world) = Ok [].
Proof.
  split; [lia|]. split; [reflexivity|].
  destruct (generate_images_empty_count (scripted healthy) "a cat" 512 512 None 50
              default_guidance_scale "auto:org/model" 0 None serving_world
              ltac:(lia) eq_refl) as (_ & _ & Returns).
  apply Returns. reflexivity.
Defined.

(** X8 at work: the serving world has an engine for its model path, and
    still has after a load of another model and after a request. *)
Lemma health_implies_ready_witness :
  ready_if_loaded serving_world /\
  ready_if_loaded (snd (load_model (scripted healthy) "org/other" serving_world)) /\
  ready_if_loaded
    (snd (create_image (scripted healthy) (sample_request "sd") serving_world)).
Proof.
  assert (H : ready_if_loaded serving_world) by (intros _; discriminate).
  split; [exact H|].
  destruct (health_implies_ready (scripted healthy) "org/other" (sample_request "sd")
              serving_world H) as (Loaded & Asked & _).
  split; [exact Loaded|exact Asked].
Defined.

(** X11 at work: with nothing loaded a request is refused with 503 and
    nothing happens. *)
Lemma create_image_refusals_witness :
  passes_gate starting_world "sd" = true /\
  create_image (scripted healthy) (sample_request "sd") starting_world
  = (Raise (http_exception (scripted healthy) 503 "No model loaded. Server is not ready."),
     starting_world).
Proof.
  split; [reflexivity|].
  destruct (create_image_refusals (scripted healthy) (sample_request "sd") starting_world
              eq_refl) as (Unready & _).
  apply Unready. reflexivity.
Defined.

(** X12 at work: the engine refuses the size with a [ValueError], and the
    answer is 400 with its text. *)
Lemma create_image_generation_failure_witness :
  exists e w2,
    generate_images refusing_engine "a cat" 2 512 512 None 50 default_guidance_scale
      (Some 7) serving_world = (Raise e, w2) /\
    status_of (fst (create_image refusing_engine (sample_request "sd") serving_world))
    = Some 400 /\
    detail_of (fst (create_image refusing_engine (sample_request "sd") serving_world))
    = Some "`height` and `width` have to be divisible by 8".
Proof.
  eexists. eexists. split; [reflexivity|].
  destruct (create_image_generation_failure refusing_engine (sample_request "sd")
              serving_world _ "auto:org/model" 512 512 _ eq_refl eq_refl eq_refl eq_refl)
    as (Status & Detail & _).
  split; [exact Status|exact Detail].
Defined.

(** X13 at work: two images are generated and the answer carries both. *)
Lemma create_image_envelope_witness :
  let g := generate_images (scripted healthy) "a cat" 2 512 512 None 50
             default_guidance_scale (Some 7) serving_world in
  fst g = Ok [[Byte.x07]; [Byte.x08]] /\
  fst (create_image (scripted healthy) (sample_request "sd") serving_world)
  = Ok {| created := time_time (scripted healthy) (trace (snd g));
          data := map (b64_item (scripted healthy)) [[Byte.x07]; [Byte.x08]] |}.
Proof.
  intros g.
  assert (Hg : fst g = Ok [[Byte.x07]; [Byte.x08]]) by reflexivity.
  split; [exact Hg|].
  destruct (create_image_envelope (scripted healthy) (sample_request "sd")
              serving_world (snd g) "auto:org/model" 512 512 [[Byte.x07]; [Byte.x08]]
              eq_refl eq_refl eq_refl (pair_of_fst g _ Hg) eq_refl) as (Answer & _).
  exact Answer.
Defined.

(** X14 at work: the same request asking for links has its two images
    generated and is then answered 500. *)
Lemma create_image_url_format_witness :
  let g := generate_images (scripted healthy) "a cat" 2 512 512 None 50
             default_guidance_scale (Some 7) serving_world in
  fst g = Ok [[Byte.x07]; [Byte.x08]] /\
  status_of (fst (create_image (scripted healthy) (url_request "sd") serving_world))
  = Some 500 /\
  trace (snd (create_image (scripted healthy) (url_request "sd") serving_world))
  = trace (snd g).
Proof.
  intros g.
  assert (Hg : fst g = Ok [[Byte.x07]; [Byte.x08]]) by reflexivity.
  split; [exact Hg|].
  destruct (create_image_url_format (scripted healthy) (url_request "sd")
              serving_world (snd g) "auto:org/model" 512 512 [[Byte.x07]; [Byte.x08]]
              eq_refl eq_refl eq_refl (pair_of_fst g _ Hg) eq_refl ltac:(discriminate))
    as (Status & _ & Trace).
  split; [exact Status|exact Trace].
Defined.

(** X15 at work: a request for a model that is not served leaves as an
    [HTTPException]. *)
Lemma create_image_raises_http_only_witness :
  exists e,
    fst (create_image (scripted healthy) (sample_request "other") serving_world)
    = Raise e /\
    exists code detail,
      exn_cls e = HTTPException code detail /\ In code [421; 503; 400; 500].
Proof.
  eexists. split; [reflexivity|].
  exact (create_image_raises_http_only (scripted healthy) (sample_request "other")
           serving_world _ eq_refl).
Defined.

(** X16 at work: the server is started as [sd]; once [org/model] is loaded
    a request that names [org/model] is not turned away. *)
Lemma loaded_path_is_accepted_witness :
  fst (load_model (scripted healthy) "org/model" starting_world) = Ok "auto:org/model" /\
  req_model (sample_request "org/model") = "org/model" /\
  let w1 := snd (load_model (scripted healthy) "org/model" starting_world) in
  status_of (fst (create_image (scripted healthy) (sample_request "org/model") w1))
  <> Some 421 /\
  status_of (fst (create_image (scripted healthy) (sample_request "org/model") w1))
  <> Some 503.
Proof.
  split; [reflexivity|]. split; [reflexivity|].
  destruct (loaded_path_is_accepted (scripted healthy) "org/model"
              (sample_request "org/model") starting_world "auto:org/model"
              eq_refl eq_refl) as (_ & Not421 & Not503).
  split; [exact Not421|exact Not503].
Defined.
